(** * ProcessorService (lib/services/processor-service.js)

    A shallow embedding of ESLint's processor service: the helper
    [getBodyWithBOM] and the two methods [preprocessSync] and
    [postprocessSync] of [ProcessorService], over a store of JavaScript
    objects, followed by the properties of the service. *)

From Stdlib Require Import Strings.Byte Strings.Ascii Strings.String DecimalString.
From Stdlib Require DecimalNat.
From stdpp Require Import base numbers list strings.

(** ** JavaScript strings

    A JavaScript string is a sequence of UTF-16 code units; each element
    of a [JsString] is a code unit, a number below 65536. *)

Abbreviation JsString := (list N).

(** The code units of a string literal of the source (ASCII). *)
Definition lit (s : string) : JsString :=
  Ascii.N_of_ascii <$> String.list_ascii_of_string s.

(** U+FEFF, the byte order mark. *)
Definition BOM_CHAR : N := 65279%N.

Module JsStr.

Local Open Scope N_scope.

(** [String(i)] for an array index: its decimal digits. *)
Definition of_index (i : nat) : JsString :=
  lit (NilEmpty.string_of_uint (Nat.to_uint i)).

(** [\d] under the [u] flag: the ASCII digits only. *)
Definition is_digit (c : N) : bool := (48 <=? c) && (c <=? 57).

(** A letter of the pattern under the [i] and [u] flags.  The simple
    case folding of Unicode maps to [l], [i], [n] and [e] only those
    letters and their capitals, so [lower] matches [lower] and
    [lower - 32]. *)
Definition eq_ci (lower c : N) : bool := (c =? lower) || (c =? lower - 32).

Fixpoint skip_digits (s : JsString) : JsString :=
  match s with
  | c :: s' => if is_digit c then skip_digits s' else s
  | [] => []
  end.

(** The match of [/^line \d+:/iu] on [s], if any: the text that follows
    the match.  The pattern is anchored at the start; [\d+] is greedy
    and the character after the digits must be the colon, which is not
    a digit, so no backtracking finds another match. *)
Definition match_line_prefix (s : JsString) : option JsString :=
  match s with
  | l :: i :: n :: e :: sp :: d :: rest =>
      if eq_ci 108 l && eq_ci 105 i && eq_ci 110 n && eq_ci 101 e
         && (sp =? 32) && is_digit d
      then match skip_digits rest with
           | c :: rest' => if c =? 58 then Some rest' else None
           | [] => None
           end
      else None
  | _ => None
  end.

(** [s.replace(/^line \d+:/iu, "")]. *)
Definition replace_line_prefix (s : JsString) : JsString :=
  match match_line_prefix s with
  | Some rest => rest
  | None => s
  end.

(** WhiteSpace and LineTerminator of ECMAScript: what [trim] removes. *)
Definition is_white_space (c : N) : bool :=
  (c =? 9) || (c =? 10) || (c =? 11) || (c =? 12) || (c =? 13)
  || (c =? 32) || (c =? 160) || (c =? 5760)
  || ((8192 <=? c) && (c <=? 8202))
  || (c =? 8232) || (c =? 8233) || (c =? 8239) || (c =? 8287)
  || (c =? 12288) || (c =? 65279).

Fixpoint trim_start (s : JsString) : JsString :=
  match s with
  | c :: s' => if is_white_space c then trim_start s' else s
  | [] => []
  end.

Definition trim_end (s : JsString) : JsString :=
  reverse (trim_start (reverse s)).

(** [s.trim()]. *)
Definition trim (s : JsString) : JsString := trim_end (trim_start s).

(** Removing one leading byte order mark, as a loader does. *)
Definition strip_bom (s : JsString) : JsString :=
  match s with
  | c :: s' => if c =? BOM_CHAR then s' else s
  | [] => []
  end.

(** The lower-case form of an ASCII letter; other code units stay. *)
Definition to_lower (c : N) : N :=
  if (65 <=? c) && (c <=? 90) then c + 32 else c.

(** The pattern in the words of the specification: [s] begins with the
    word [line] in any case, a space, one or more digits and a colon,
    and [rest] is what follows the colon. *)
Definition line_pattern (s rest : JsString) : Prop :=
  ∃ word digits,
    s = word ++ digits ++ 58 :: rest
    ∧ to_lower <$> word = lit "line "
    ∧ digits ≠ []
    ∧ Forall (λ c, is_digit c = true) digits.

End JsStr.

(** ** [node:path]

    [path.join] of Node.js on a POSIX platform, for two arguments, after
    the documentation of the module: the non-empty arguments are joined
    with ["/"] and the result is normalised.  Normalising drops empty and
    ["."] segments, resolves [".."] against the segment before it, keeps a
    trailing separator, and never climbs above the root of an absolute
    path. *)

Module Path.

Local Open Scope N_scope.

Definition SLASH : N := 47.
Definition DOT : N := 46.

(** The segments of [s] between separators; [split [] = [[]]]. *)
Fixpoint split (s : JsString) : list JsString :=
  match s with
  | [] => [[]]
  | c :: s' =>
      if c =? SLASH then [] :: split s'
      else match split s' with
           | seg :: segs => (c :: seg) :: segs
           | [] => [[c]]
           end
  end.

Fixpoint join_segments (segs : list JsString) : JsString :=
  match segs with
  | [] => []
  | [seg] => seg
  | seg :: segs' => seg ++ SLASH :: join_segments segs'
  end.

Definition is_dot (seg : JsString) : bool :=
  match seg with [c] => c =? DOT | _ => false end.

Definition is_dotdot (seg : JsString) : bool :=
  match seg with [c; d] => (c =? DOT) && (d =? DOT) | _ => false end.

Definition is_empty (seg : JsString) : bool :=
  match seg with [] => true | _ => false end.

(** One segment of [normalizeString]; [stack] holds the segments kept
    so far, the last one first. *)
Definition push_segment (allowAboveRoot : bool)
    (stack : list JsString) (seg : JsString) : list JsString :=
  if is_empty seg || is_dot seg then stack
  else if is_dotdot seg then
    match stack with
    | top :: below =>
        if is_dotdot top then seg :: stack else below
    | [] => if allowAboveRoot then [seg] else []
    end
  else seg :: stack.

Definition normalizeString (path : JsString) (allowAboveRoot : bool)
    : JsString :=
  join_segments
    (reverse (foldl (push_segment allowAboveRoot) [] (split path))).

Definition starts_with_slash (path : JsString) : bool :=
  match path with c :: _ => c =? SLASH | [] => false end.

Definition ends_with_slash (path : JsString) : bool :=
  match last path with Some c => c =? SLASH | None => false end.

Definition normalize (path : JsString) : JsString :=
  match path with
  | [] => [DOT]
  | _ =>
      let isAbsolute := starts_with_slash path in
      let trailingSeparator := ends_with_slash path in
      let path' := normalizeString path (negb isAbsolute) in
      match path' with
      | [] =>
          if isAbsolute then [SLASH]
          else if trailingSeparator then [DOT; SLASH] else [DOT]
      | _ =>
          let path'' :=
            if trailingSeparator then path' ++ [SLASH] else path' in
          if isAbsolute then SLASH :: path'' else path''
      end
  end.

(** [path.join(a, b)]. *)
Definition join (a b : JsString) : JsString :=
  match a, b with
  | [], [] => [DOT]
  | [], _ => normalize b
  | _, [] => normalize a
  | _, _ => normalize (a ++ SLASH :: b)
  end.

(** A segment that normalisation keeps as it is: not empty, not ["."]
    and not [".."]. *)
Definition plain (seg : JsString) : bool :=
  negb (is_empty seg || is_dot seg || is_dotdot seg).

(** A relative path made of plain segments only, such as [a/b.md]. *)
Definition plain_segments (s : JsString) : bool := forallb plain (split s).

(** A path made of plain segments, after a leading separator if it has
    one: [a/b.md] or [/a/b.md]. *)
Definition plain_path (s : JsString) : bool :=
  match s with
  | c :: s' => if c =? SLASH then plain_segments s' else plain_segments s
  | [] => false
  end.

End Path.

(** ** Values and the store

    Primitive values are immediate; objects, arrays, typed arrays and
    functions live in the store and are denoted by their location, so
    that two references to one object share its cell. *)

Abbreviation loc := nat.

(** Numbers are the integers among the numbers of JavaScript; the
    service computes with none of them. *)
Inductive Val :=
| VUndefined
| VNull
| VBool (b : bool)
| VNumber (n : Z)
| VString (s : JsString)
| VRef (l : loc).

(** A cell of the store.  The properties of an object are all the data
    properties a read reaches, its own and the inherited ones; the
    behaviour of a function is given by its identifier (see [call] in
    section [Service]). *)
Inductive Cell :=
| CObject (props : list (string * Val))
| CArray (items : list Val)
| CBytes (bytes : list byte)
| CFunction (f : nat).

Abbreviation Store := (list Cell).

#[global] Instance Val_eq_dec : EqDecision Val.
Proof. solve_decision. Defined.

#[global] Instance byte_eq_dec : EqDecision byte.
Proof. intros a b. unfold Decision. decide equality. Defined.

#[global] Instance Cell_eq_dec : EqDecision Cell.
Proof. solve_decision. Defined.

#[global] Instance is_string_dec (v : Val) : Decision (∃ s, v = VString s).
Proof.
  destruct v; first [by left; eauto | by right; intros [? ?]].
Defined.

(** Where the engine raises a [TypeError] or a [RangeError]. *)
Inductive EngineError :=
| ReadOfNullish (prop : string)
| NotCallable (prop : string)
| InvalidPathArgument
| SetOutOfBounds.

(** What a call ends with when it does not return: an error raised by
    the engine, an error the source itself constructs with [new Error],
    or a value thrown by a processor. *)
Inductive Abrupt :=
| Engine (e : EngineError)
| NewError (message : JsString)
| Raised (v : Val).

(** [Unmodelled] marks the few executions that leave the fragment of
    JavaScript modelled here: they would run a method supplied by the
    processor's value (a [replace], [map] or [toString] of its own), read
    an error object made by the engine, whose text depends on the engine,
    take for a typed array a value that is none, or follow a reference
    that is not in the store. *)
Inductive Outcome (A : Type) :=
| Returned (a : A)
| Thrown (e : Abrupt)
| Unmodelled.
Arguments Returned {A} a.
Arguments Thrown {A} e.
Arguments Unmodelled {A}.

(** Computations read and extend the store. *)
Definition M (A : Type) : Type := Store → Outcome A * Store.

#[global] Instance M_ret : MRet M := λ A a st, (Returned a, st).

#[global] Instance M_bind : MBind M := λ A B f m st,
  match m st with
  | (Returned a, st') => f a st'
  | (Thrown e, st') => (Thrown e, st')
  | (Unmodelled, st') => (Unmodelled, st')
  end.

Definition throw {A} (e : Abrupt) : M A := λ st, (Thrown e, st).
Definition unmodelled {A} : M A := λ st, (Unmodelled, st).

(** A fresh cell: the store grows at its end. *)
Definition alloc (c : Cell) : M loc := λ st, (Returned (length st), st ++ [c]).

Definition read (l : loc) : M Cell := λ st,
  match st !! l with
  | Some c => (Returned c, st)
  | None => (Unmodelled, st)
  end.

Definition write (l : loc) (c : Cell) : M unit := λ st,
  (Returned (), <[l := c]> st).

(** [try { body } catch (ex) { handler }], for a handler that returns.
    Only a value thrown by a processor is handed to the handler: the
    source reads the [message], [lineNumber] and [column] of what it
    caught, and for an error object made by the engine these depend on
    the engine. *)
Definition try_catch {A} (body : M A) (handler : Val → M A) : M A := λ st,
  match body st with
  | (Thrown (Raised ex), st') => handler ex st'
  | (Thrown _, st') => (Unmodelled, st')
  | r => r
  end.

Fixpoint lookup_prop (props : list (string * Val)) (name : string) : Val :=
  match props with
  | [] => VUndefined
  | (k, v) :: props' => if String.eqb k name then v else lookup_prop props' name
  end.

(** [typeof v]. *)
Definition typeof (st : Store) (v : Val) : string :=
  match v with
  | VUndefined => "undefined"
  | VNull => "object"
  | VBool _ => "boolean"
  | VNumber _ => "number"
  | VString _ => "string"
  | VRef l =>
      match st !! l with
      | Some (CFunction _) => "function"
      | _ => "object"
      end
  end.

(** ToBoolean. *)
Definition truthy (v : Val) : bool :=
  match v with
  | VUndefined | VNull => false
  | VBool b => b
  | VNumber n => negb (n =? 0)%Z
  | VString s => negb (bool_decide (s = []))
  | VRef _ => true
  end.

(** [v.name], for the names the service reads ([processor], [preprocess],
    [postprocess], [path], [physicalPath], [body], [bom], [then],
    [message], [lineNumber], [column], [filename], [text]): none of them
    is defined by the prototype of a string, number, boolean, array,
    typed array or function, so only an object's own table answers. *)
Definition get_prop (v : Val) (name : string) : M Val :=
  match v with
  | VUndefined | VNull => throw (Engine (ReadOfNullish name))
  | VRef l =>
      c ← read l;
      match c with
      | CObject props => mret (lookup_prop props name)
      | _ => mret VUndefined
      end
  | _ => mret VUndefined
  end.

(** The store as it is now. *)
Definition get_store : M Store := λ st, (Returned st, st).

(** ToString, as a template literal applies it to a substitution.  A
    number prints as its decimal digits below 10^21; an object would run
    its own [toString] or [valueOf]. *)
Definition to_string (v : Val) : M JsString :=
  match v with
  | VUndefined => mret (lit "undefined")
  | VNull => mret (lit "null")
  | VBool true => mret (lit "true")
  | VBool false => mret (lit "false")
  | VNumber n =>
      if decide (Z.abs n < 10 ^ 21)%Z
      then mret (lit (NilEmpty.string_of_int (Z.to_int n)))
      else unmodelled
  | VString s => mret s
  | VRef _ => unmodelled
  end.

(** [path.join(a, b)] where [b] is a string: the module checks that each
    argument is one. *)
Definition path_join (a : Val) (b : JsString) : M JsString :=
  match a with
  | VString p => mret (Path.join p b)
  | _ => throw (Engine InvalidPathArgument)
  end.

(** [v.replace(/^line \d+:/iu, "")]: the method of strings.  Numbers,
    booleans, arrays, typed arrays and functions have no [replace]; an
    object may carry one of its own. *)
Definition replace_line_prefix (v : Val) : M JsString :=
  match v with
  | VUndefined | VNull => throw (Engine (ReadOfNullish "replace"))
  | VString s => mret (JsStr.replace_line_prefix s)
  | VRef l =>
      st ← get_store;
      c ← read l;
      match c with
      | CObject props =>
          if String.eqb (typeof st (lookup_prop props "replace")) "function"
          then unmodelled
          else throw (Engine (NotCallable "replace"))
      | _ => throw (Engine (NotCallable "replace"))
      end
  | _ => throw (Engine (NotCallable "replace"))
  end.

(** The callbacks of [Array.prototype.map], applied in index order. *)
Fixpoint map_items (callback : Val → nat → M Val) (items : list Val)
    (i : nat) : M (list Val) :=
  match items with
  | [] => mret []
  | item :: items' =>
      v ← callback item i;
      vs ← map_items callback items' (S i);
      mret (v :: vs)
  end.

(** [v.map(callback)]: the method of arrays, which returns a new array.
    Strings, numbers, booleans and functions have no [map]; an object may
    carry one of its own, and the [map] of a typed array coerces what the
    callback returns. *)
Definition array_map (v : Val) (callback : Val → nat → M Val) : M Val :=
  match v with
  | VUndefined | VNull => throw (Engine (ReadOfNullish "map"))
  | VRef l =>
      st ← get_store;
      c ← read l;
      match c with
      | CArray items =>
          results ← map_items callback items 0;
          a ← alloc (CArray results);
          mret (VRef a)
      | CObject props =>
          if String.eqb (typeof st (lookup_prop props "map")) "function"
          then unmodelled
          else throw (Engine (NotCallable "map"))
      | CBytes _ => unmodelled
      | CFunction _ => throw (Engine (NotCallable "map"))
      end
  | _ => throw (Engine (NotCallable "map"))
  end.

(** ** The helper of the module *)

(** The elements of the typed array [v]. *)
Definition bytes_of (v : Val) : M (list byte) :=
  match v with
  | VUndefined | VNull => throw (Engine (ReadOfNullish "length"))
  | VRef l =>
      c ← read l;
      match c with
      | CBytes bytes => mret bytes
      | _ => unmodelled
      end
  | _ => unmodelled
  end.

(** [v.length] of a typed array. *)
Definition typed_length (v : Val) : M nat :=
  bytes ← bytes_of v; mret (length bytes).

(** [target.set(source, offset)] on typed arrays: the elements of
    [source] take the place of those of [target] from [offset] on. *)
Definition typed_set (target : loc) (source : Val) (offset : nat) : M unit :=
  old ← bytes_of (VRef target);
  new ← bytes_of source;
  if decide (offset + length new ≤ length old) then
    write target
      (CBytes (take offset old ++ new ++ drop (offset + length new) old))
  else throw (Engine SetOutOfBounds).

Definition getBodyWithBOM (file : Val) : M Val :=
  bom ← get_prop file "bom";
  if negb (truthy bom) then get_prop file "body"
  else
    body ← get_prop file "body";
    st ← get_store;
    if String.eqb (typeof st body) "string" then
      body ← get_prop file "body";
      s ← to_string body;
      mret (VString (BOM_CHAR :: s))
    else
      bom ← alloc (CBytes [xef; xbb; xbf]);
      bomLength ← typed_length (VRef bom);
      body ← get_prop file "body";
      bodyLength ← typed_length body;
      bodyWithBOM ← alloc (CBytes (replicate (bomLength + bodyLength) x00));
      _ ← typed_set bodyWithBOM (VRef bom) 0;
      body ← get_prop file "body";
      bomLength ← typed_length (VRef bom);
      _ ← typed_set bodyWithBOM body bomLength;
      mret (VRef bodyWithBOM).

(** ** The service: the methods of [ProcessorService] *)

Section Service.

(** What the functions of the processor do: [call f this args] runs the
    function [f] of the store on the given receiver and arguments, and
    ends by returning a value ([inl]) or by throwing one ([inr]); it may
    change the store as it likes. *)
Variable call : nat → Val → list Val → Store → (Val + Val) * Store.

(** The [bom] flag that the constructor of [VFile] gives a file of the
    given body; the specification does not say which. *)
Variable derived_bom : Val → bool.

(** [f.call(this, ...args)] for a value [f] read from property [name]. *)
Definition call_function (name : string) (f this : Val) (args : list Val)
    : M Val :=
  match f with
  | VRef l =>
      c ← read l;
      match c with
      | CFunction id => λ st,
          match call id this args st with
          | (inl v, st') => (Returned v, st')
          | (inr ex, st') => (Thrown (Raised ex), st')
          end
      | _ => throw (Engine (NotCallable name))
      end
  | _ => throw (Engine (NotCallable name))
  end.

(** Modelled from the spec: the constructor of [VFile], declared in
    lib/linter/vfile.js.  [new VFile(path, body, { physicalPath })] is a
    new object with the attributes [path], [physicalPath], [body] and
    [bom] of a VirtualFile, the first three as given. *)
Definition new_VFile (path body physicalPath : Val) : M Val :=
  l ← alloc (CObject [("path", path); ("physicalPath", physicalPath);
                      ("body", body); ("bom", VBool (derived_bom body))]);
  mret (VRef l).

(** The handler of the [catch] clause of [preprocessSync]. *)
Definition preprocess_failure (ex : Val) : M Val :=
  exMessage ← get_prop ex "message";
  replaced ← replace_line_prefix exMessage;
  let message := lit "Preprocessing error: " ++ JsStr.trim replaced in
  line ← get_prop ex "lineNumber";
  column ← get_prop ex "column";
  record ← alloc (CObject [("ruleId", VNull); ("fatal", VBool true);
                           ("severity", VNumber 2);
                           ("message", VString message);
                           ("line", line); ("column", column);
                           ("nodeType", VNull)]);
  errors ← alloc (CArray [VRef record]);
  result ← alloc (CObject [("ok", VBool false); ("errors", VRef errors)]);
  mret (VRef result).

(** The callback that [preprocessSync] maps over the blocks. *)
Definition derive_block (file : Val) (block : Val) (i : nat) : M Val :=
  st ← get_store;
  if String.eqb (typeof st block) "string" then mret block
  else
    parentPath ← get_prop file "path";
    filename ← get_prop block "filename";
    name ← to_string filename;
    filePath ← path_join parentPath (JsStr.of_index i ++ lit "_" ++ name);
    text ← get_prop block "text";
    physicalPath ← get_prop file "physicalPath";
    new_VFile (VString filePath) text physicalPath.

(** The body of the [try] block of [preprocessSync]:
    [processor.preprocess(getBodyWithBOM(file), file.path)]. *)
Definition invoke_preprocess (file processor : Val) : M Val :=
  preprocess ← get_prop processor "preprocess";
  body ← getBodyWithBOM file;
  path ← get_prop file "path";
  call_function "preprocess" preprocess processor [body; path].

(** What [preprocessSync] does once the processor has returned
    [blocks]: the statements after the [try] block. *)
Definition after_preprocess (file blocks : Val) : M Val :=
  then_ ← get_prop blocks "then";
  st ← get_store;
  if String.eqb (typeof st then_) "function" then
    throw (NewError (lit "Unsupported: Preprocessor returned a promise."))
  else
    files ← array_map blocks (derive_block file);
    result ← alloc (CObject [("ok", VBool true); ("files", files)]);
    mret (VRef result).

Definition preprocessSync (file config : Val) : M Val :=
  processor ← get_prop config "processor";
  attempt ← try_catch
    (blocks ← invoke_preprocess file processor; mret (inl blocks))
    (λ ex, result ← preprocess_failure ex; mret (inr result));
  match attempt with
  | inr result => mret result
  | inl blocks => after_preprocess file blocks
  end.

Definition postprocessSync (file messages config : Val) : M Val :=
  processor ← get_prop config "processor";
  postprocess ← get_prop processor "postprocess";
  if truthy postprocess then
    postprocess ← get_prop processor "postprocess";
    path ← get_prop file "path";
    call_function "postprocess" postprocess processor [messages; path]
  else mret messages.

End Service.

(** ** Reading the store *)

(** [v.name] for a reference to an object of [st]. *)
Definition prop_of (st : Store) (v : Val) (name : string) : option Val :=
  match v with
  | VRef l =>
      match st !! l with
      | Some (CObject props) => Some (lookup_prop props name)
      | _ => None
      end
  | _ => None
  end.

(** The elements of the array that [v] refers to. *)
Definition items_of (st : Store) (v : Val) : option (list Val) :=
  match v with
  | VRef l =>
      match st !! l with
      | Some (CArray items) => Some items
      | _ => None
      end
  | _ => None
  end.

(** The elements of [result.files]. *)
Definition result_files (st : Store) (result : Val) : option (list Val) :=
  files ← prop_of st result "files"; items_of st files.

(** The elements of [result.errors]. *)
Definition result_errors (st : Store) (result : Val) : option (list Val) :=
  errors ← prop_of st result "errors"; items_of st errors.

(** The elements of the typed array that [v] refers to. *)
Definition bytes_at (st : Store) (v : Val) : option (list byte) :=
  match v with
  | VRef l =>
      match st !! l with
      | Some (CBytes bytes) => Some bytes
      | _ => None
      end
  | _ => None
  end.

(** ** What the preprocessing orchestrator builds *)

(** The diagnostic that [preprocessSync] builds from a caught error with
    the given message, line and column. *)
Definition failure_record (m : JsString) (line column : Val) : Cell :=
  CObject [("ruleId", VNull); ("fatal", VBool true); ("severity", VNumber 2);
           ("message",
            VString (lit "Preprocessing error: "
                       ++ JsStr.trim (JsStr.replace_line_prefix m)));
           ("line", line); ("column", column); ("nodeType", VNull)].

(** The object that [new VFile] builds for block [i] of a file. *)
Definition derived_file (derived_bom : Val → bool) (parentPath : JsString)
    (physicalPath : Val) (i : nat) (filename : JsString) (text : Val) : Cell :=
  CObject [("path",
            VString (Path.join parentPath
                       (JsStr.of_index i ++ lit "_" ++ filename)));
           ("physicalPath", physicalPath); ("body", text);
           ("bom", VBool (derived_bom text))].

(** The name of a structured block. *)
Definition block_filename (st : Store) (block : Val) : option JsString :=
  match prop_of st block "filename" with
  | Some (VString name) => Some name
  | _ => None
  end.

Definition block_text (st : Store) (block : Val) : Val :=
  default VUndefined (prop_of st block "text").

(** A block as the processor interface declares it: a string, or an
    object with a [filename] that is a string. *)
Definition is_block (st : Store) (block : Val) : bool :=
  match block with
  | VString _ => true
  | _ => bool_decide (is_Some (block_filename st block))
  end.

(** The files of the blocks [items], the first one at index [i], and the
    cells allocated for them from location [next] on. *)
Fixpoint derived_files (derived_bom : Val → bool) (st : Store)
    (parentPath : JsString) (physicalPath : Val) (items : list Val)
    (i : nat) (next : loc) : list Val * list Cell :=
  match items with
  | [] => ([], [])
  | VString s :: items' =>
      let '(vs, cs) :=
        derived_files derived_bom st parentPath physicalPath items' (S i) next
      in (VString s :: vs, cs)
  | block :: items' =>
      let '(vs, cs) :=
        derived_files derived_bom st parentPath physicalPath items' (S i)
          (S next)
      in (VRef next :: vs,
          derived_file derived_bom parentPath physicalPath i
            (default [] (block_filename st block)) (block_text st block) :: cs)
  end.

(** ** What a computation writes to the store *)

(** [m] leaves every cell of the store as it is; it may add cells. *)
Definition only_allocates {A} (m : M A) : Prop :=
  ∀ st, st `prefix_of` (m st).2.

(** [m] leaves every cell of [base] as it is, in any store that extends
    [base], and returns values that satisfy [Q]. *)
Definition keeps {A} (base : Store) (m : M A) (Q : A → Prop) : Prop :=
  ∀ st, base `prefix_of` st →
    base `prefix_of` (m st).2 ∧ ∀ a, (m st).1 = Returned a → Q a.

(** [m] leaves every cell of the store as it is, but for what one call
    of a function of the processor does: the store either only grows, or
    only grows up to the call and only grows after it. *)
Definition allocates_around_call {A}
    (call : nat → Val → list Val → Store → (Val + Val) * Store)
    (m : M A) : Prop :=
  ∀ st,
    st `prefix_of` (m st).2
    ∨ ∃ f this args st0,
        st `prefix_of` st0
        ∧ (call f this args st0).2 `prefix_of` (m st).2.

(** A processor whose functions leave every cell as it is. *)
Definition call_only_allocates
    (call : nat → Val → list Val → Store → (Val + Val) * Store) : Prop :=
  ∀ f this args st, st `prefix_of` (call f this args st).2.

(** ** Processors and stores to run the service on *)

Module Examples.

(** Location 0 holds the function [preprocess], 1 the function
    [postprocess], 2 the processor, 3 the configuration, 4 a text file
    at [/a/foo.md], 5 the bytes of a binary file and 6 that file, from
    which a byte order mark was taken when it was loaded; 7 is a
    processor without [postprocess], 8 its configuration, and 9 the
    diagnostics of two blocks. *)
Definition store : Store :=
  [CFunction 0;
   CFunction 1;
   CObject [("preprocess", VRef 0); ("postprocess", VRef 1)];
   CObject [("processor", VRef 2)];
   CObject [("path", VString (lit "/a/foo.md"));
            ("physicalPath", VString (lit "/a/foo.md"));
            ("body", VString (lit "# Title")); ("bom", VBool false)];
   CBytes [x23; x20; x54];
   CObject [("path", VString (lit "/a/bar.md"));
            ("physicalPath", VString (lit "/a/bar.md"));
            ("body", VRef 5); ("bom", VBool true)];
   CObject [("preprocess", VRef 0)];
   CObject [("processor", VRef 7)];
   CArray [VRef 10; VRef 10];
   CArray []].

(** A text file from which a byte order mark was taken. *)
Definition text_store : Store :=
  [CObject [("path", VString (lit "/a/foo.md"));
            ("physicalPath", VString (lit "/a/foo.md"));
            ("body", VString (lit "# Title")); ("bom", VBool true)]].

Definition file : Val := VRef 4.
Definition binary_file : Val := VRef 6.
Definition config : Val := VRef 3.
Definition config_without_postprocess : Val := VRef 8.
Definition messages : Val := VRef 9.

Definition derived_bom (body : Val) : bool := false.

(** [preprocess] returns two structured blocks; [postprocess] returns
    a new, empty list of diagnostics. *)
Definition two_blocks (f : nat) (this : Val) (args : list Val) (st : Store)
    : (Val + Val) * Store :=
  match f with
  | 0 =>
      (inl (VRef (length st + 2)),
       st ++ [CObject [("text", VString (lit "a"));
                       ("filename", VString (lit "x.js"))];
              CObject [("text", VString (lit "b"));
                       ("filename", VString (lit "y.js"))];
              CArray [VRef (length st); VRef (length st + 1)]])
  | _ => (inl (VRef (length st)), st ++ [CArray []])
  end.

(** [preprocess] returns one block whose name climbs out of its own
    first segment. *)
Definition climbing_block (f : nat) (this : Val) (args : list Val)
    (st : Store) : (Val + Val) * Store :=
  (inl (VRef (length st + 1)),
   st ++ [CObject [("text", VString (lit "a"));
                   ("filename", VString (lit "lib/../x.js"))];
          CArray [VRef (length st)]]).

(** [preprocess] returns a string, the legacy shape of a block. *)
Definition plain_text (f : nat) (this : Val) (args : list Val) (st : Store)
    : (Val + Val) * Store :=
  (inl (VRef (length st)), st ++ [CArray [VString (lit "plain text")]]).

(** [preprocess] throws an error that reports a line. *)
Definition bad_token (f : nat) (this : Val) (args : list Val) (st : Store)
    : (Val + Val) * Store :=
  (inr (VRef (length st)),
   st ++ [CObject [("message", VString (lit "line 4: bad token"));
                   ("lineNumber", VNumber 4)]]).

(** [preprocess] returns a promise. *)
Definition promise (f : nat) (this : Val) (args : list Val) (st : Store)
    : (Val + Val) * Store :=
  (inl (VRef (length st + 1)),
   st ++ [CFunction 2; CObject [("then", VRef (length st))]]).

(** [preprocess] returns [null]. *)
Definition null (f : nat) (this : Val) (args : list Val) (st : Store)
    : (Val + Val) * Store :=
  (inl VNull, st).

End Examples.

(** More processors and files, for the further properties of the
    service. *)

Module MoreExamples.

(** The store of [Examples] with, at location 11, a text file from which
    a byte order mark was taken, at 12 a processor whose [postprocess] is
    not a function, at 13 its configuration, and at 14 a block without a
    [filename]. *)
Definition store : Store :=
  Examples.store
    ++ [CObject [("path", VString (lit "/a/baz.md"));
                 ("physicalPath", VString (lit "/a/baz.md"));
                 ("body", VString (lit "# Title")); ("bom", VBool true)];
        CObject [("preprocess", VRef 0); ("postprocess", VString (lit "yes"))];
        CObject [("processor", VRef 12)];
        CObject [("text", VString (lit "a"))]].

Definition bom_file : Val := VRef 11.
Definition config_with_bad_postprocess : Val := VRef 13.
Definition nameless_block : Val := VRef 14.

(** Both functions of the processor throw [null]. *)
Definition throws_null (f : nat) (this : Val) (args : list Val) (st : Store)
    : (Val + Val) * Store :=
  (inr VNull, st).

(** Both functions of the processor throw an error whose message has
    white space before its line number. *)
Definition indented_message (f : nat) (this : Val) (args : list Val)
    (st : Store) : (Val + Val) * Store :=
  (inr (VRef (length st)),
   st ++ [CObject [("message", VString (lit "  line 4: bad token"))]]).

(** [preprocess] returns a structured block and [null]. *)
Definition block_and_null (f : nat) (this : Val) (args : list Val)
    (st : Store) : (Val + Val) * Store :=
  (inl (VRef (length st + 1)),
   st ++ [CObject [("text", VString (lit "a"));
                   ("filename", VString (lit "x.js"))];
          CArray [VRef (length st); VNull]]).

(** [preprocess] returns two blocks whose names climb out of their own
    first segment to the same file. *)
Definition colliding_blocks (f : nat) (this : Val) (args : list Val)
    (st : Store) : (Val + Val) * Store :=
  (inl (VRef (length st + 2)),
   st ++ [CObject [("text", VString (lit "a"));
                   ("filename", VString (lit "a/../x.js"))];
          CObject [("text", VString (lit "b"));
                   ("filename", VString (lit "b/../x.js"))];
          CArray [VRef (length st); VRef (length st + 1)]]).

End MoreExamples.

(** ** Running computations *)

Lemma bind_returned {A B} (m : M A) (f : A → M B) st a st' :
  m st = (Returned a, st') → (m ≫= f) st = f a st'.
Proof. intros H. unfold mbind, M_bind. by rewrite H. Qed.

Lemma bind_thrown {A B} (m : M A) (f : A → M B) st e st' :
  m st = (Thrown e, st') → (m ≫= f) st = (Thrown e, st').
Proof. intros H. unfold mbind, M_bind. by rewrite H. Qed.

Lemma get_prop_of st v name x :
  prop_of st v name = Some x → get_prop v name st = (Returned x, st).
Proof.
  destruct v as [| | | | |l]; simpl; try done.
  unfold mbind, M_bind, read.
  destruct (st !! l) as [[]|]; simpl; try done.
  by intros [= ->].
Qed.

Lemma prop_of_app st k v name x :
  prop_of st v name = Some x → prop_of (st ++ k) v name = Some x.
Proof.
  destruct v as [| | | | |l]; simpl; try done.
  destruct (st !! l) as [c|] eqn:E; [|done].
  by rewrite (lookup_app_l_Some _ _ _ _ E).
Qed.

Lemma typeof_string st v : typeof st v = "string" ↔ ∃ s, v = VString s.
Proof.
  split.
  - destruct v as [| | | | |l]; simpl; try done; [by eauto|].
    by destruct (st !! l) as [[]|].
  - by intros [s ->].
Qed.

Lemma bytes_of_at st v bytes :
  bytes_at st v = Some bytes → bytes_of v st = (Returned bytes, st).
Proof.
  destruct v as [| | | | |l]; simpl; try done.
  unfold mbind, M_bind, read.
  destruct (st !! l) as [[]|]; simpl; try done.
  by intros [= ->].
Qed.

Lemma bytes_at_app st k v bytes :
  bytes_at st v = Some bytes → bytes_at (st ++ k) v = Some bytes.
Proof.
  destruct v as [| | | | |l]; simpl; try done.
  destruct (st !! l) as [c|] eqn:E; [|done].
  by rewrite (lookup_app_l_Some _ _ _ _ E).
Qed.

Lemma typed_length_at st v bytes :
  bytes_at st v = Some bytes → typed_length v st = (Returned (length bytes), st).
Proof.
  intros H. unfold typed_length.
  by rewrite (bind_returned _ _ _ _ _ (bytes_of_at _ _ _ H)).
Qed.

Lemma lookup_snoc (st : Store) c : (st ++ [c]) !! length st = Some c.
Proof. by rewrite lookup_app_r, Nat.sub_diag. Qed.

Lemma typed_set_snoc st old source new offset :
  bytes_at (st ++ [CBytes old]) source = Some new →
  offset + length new ≤ length old →
  typed_set (length st) source offset (st ++ [CBytes old]) =
    (Returned (),
     st ++ [CBytes (take offset old ++ new ++ drop (offset + length new) old)]).
Proof.
  intros Hsource Hle. unfold typed_set.
  assert (Htarget : bytes_at (st ++ [CBytes old]) (VRef (length st)) = Some old)
    by (unfold bytes_at; by rewrite lookup_snoc).
  rewrite (bind_returned _ _ _ _ _ (bytes_of_at _ _ _ Htarget)).
  rewrite (bind_returned _ _ _ _ _ (bytes_of_at _ _ _ Hsource)).
  destruct (decide _); [|done]. unfold write.
  by rewrite insert_app_r_alt, Nat.sub_diag.
Qed.

(** ** The BOM reconstructor *)

Section GetBodyWithBOM.

Variables (st : Store) (file : Val).

Lemma getBodyWithBOM_falsy bom body :
  prop_of st file "bom" = Some bom →
  truthy bom = false →
  prop_of st file "body" = Some body →
  getBodyWithBOM file st = (Returned body, st).
Proof.
  intros Hbom Hfalse Hbody. unfold getBodyWithBOM.
  rewrite (bind_returned _ _ _ _ _ (get_prop_of _ _ _ _ Hbom)), Hfalse.
  by apply get_prop_of.
Qed.

Lemma getBodyWithBOM_text bom s :
  prop_of st file "bom" = Some bom →
  truthy bom = true →
  prop_of st file "body" = Some (VString s) →
  getBodyWithBOM file st = (Returned (VString (BOM_CHAR :: s)), st).
Proof.
  intros Hbom Htrue Hbody. unfold getBodyWithBOM.
  rewrite (bind_returned _ _ _ _ _ (get_prop_of _ _ _ _ Hbom)), Htrue.
  change (negb true) with false. cbv iota.
  rewrite (bind_returned _ _ _ _ _ (get_prop_of _ _ _ _ Hbody)).
  rewrite (bind_returned _ _ _ _ _ (eq_refl : get_store st = _)).
  change (String.eqb (typeof st (VString s)) "string") with true.
  cbv iota.
  by rewrite (bind_returned _ _ _ _ _ (get_prop_of _ _ _ _ Hbody)).
Qed.

Lemma getBodyWithBOM_bytes bom body bytes :
  prop_of st file "bom" = Some bom →
  truthy bom = true →
  prop_of st file "body" = Some body →
  bytes_at st body = Some bytes →
  getBodyWithBOM file st =
    (Returned (VRef (S (length st))),
     st ++ [CBytes [xef; xbb; xbf]; CBytes ([xef; xbb; xbf] ++ bytes)]).
Proof.
  intros Hbom Htrue Hbody Hbytes. unfold getBodyWithBOM.
  rewrite (bind_returned _ _ _ _ _ (get_prop_of _ _ _ _ Hbom)), Htrue.
  change (negb true) with false. cbv iota.
  rewrite (bind_returned _ _ _ _ _ (get_prop_of _ _ _ _ Hbody)).
  rewrite (bind_returned _ _ _ _ _ (eq_refl : get_store st = _)).
  assert (String.eqb (typeof st body) "string" = false) as ->.
  { destruct body as [| | | | |b]; try done.
    simpl in *. by destruct (st !! b) as [[]|]. }
  rewrite (bind_returned _ _ _ _ _ (eq_refl : alloc _ st = _)).
  set (bomCell := CBytes [xef; xbb; xbf]).
  assert (Hbom1 : bytes_at (st ++ [bomCell]) (VRef (length st))
                  = Some [xef; xbb; xbf]).
  { unfold bytes_at. by rewrite lookup_snoc. }
  rewrite (bind_returned _ _ _ _ _ (typed_length_at _ _ _ Hbom1)).
  rewrite (bind_returned _ _ _ _ _
             (get_prop_of _ _ _ _ (prop_of_app _ [bomCell] _ _ _ Hbody))).
  rewrite (bind_returned _ _ _ _ _
             (typed_length_at _ _ _ (bytes_at_app _ [bomCell] _ _ Hbytes))).
  rewrite (bind_returned _ _ _ _ _ (eq_refl : alloc _ _ = _)).
  set (zeros := replicate (length [xef; xbb; xbf] + length bytes) x00).
  assert (Hlen : length (st ++ [bomCell]) = S (length st))
    by (rewrite length_app; simpl; lia).
  assert (Hset1 : typed_set (length (st ++ [bomCell])) (VRef (length st)) 0
                    ((st ++ [bomCell]) ++ [CBytes zeros])
                  = (Returned (),
                     (st ++ [bomCell])
                       ++ [CBytes ([xef; xbb; xbf]
                                     ++ replicate (length bytes) x00)])).
  { rewrite (typed_set_snoc _ zeros _ [xef; xbb; xbf]).
    - done.
    - by apply bytes_at_app.
    - unfold zeros. rewrite length_replicate. simpl. lia. }
  rewrite (bind_returned _ _ _ _ _ Hset1).
  set (st2 := (st ++ [bomCell])
                ++ [CBytes ([xef; xbb; xbf] ++ replicate (length bytes) x00)]).
  assert (Hbody2 : prop_of st2 file "body" = Some body).
  { unfold st2. rewrite <- (assoc_L (++)). by apply prop_of_app. }
  assert (Hbytes2 : bytes_at st2 body = Some bytes).
  { unfold st2. rewrite <- (assoc_L (++)). by apply bytes_at_app. }
  assert (Hbom2 : bytes_at st2 (VRef (length st)) = Some [xef; xbb; xbf]).
  { unfold st2. by apply bytes_at_app. }
  rewrite (bind_returned _ _ _ _ _ (get_prop_of _ _ _ _ Hbody2)).
  rewrite (bind_returned _ _ _ _ _ (typed_length_at _ _ _ Hbom2)).
  assert (Hset2 : typed_set (length (st ++ [bomCell])) body
                    (length [xef; xbb; xbf]) st2
                  = (Returned (),
                     (st ++ [bomCell])
                       ++ [CBytes ([xef; xbb; xbf] ++ bytes)])).
  { unfold st2. rewrite (typed_set_snoc _ _ _ bytes).
    - simpl. rewrite drop_ge by by rewrite length_replicate.
      by rewrite app_nil_r.
    - done.
    - simpl. rewrite length_replicate. lia. }
  rewrite (bind_returned _ _ _ _ _ Hset2).
  unfold mret, M_ret. by rewrite Hlen, <- (assoc_L (++)).
Qed.

End GetBodyWithBOM.

(** ** The preprocessing orchestrator *)

Section Preprocess.

Variable call : nat → Val → list Val → Store → (Val + Val) * Store.
Variable derived_bom : Val → bool.

Lemma preprocessSync_returned st file config processor blocks st1 :
  prop_of st config "processor" = Some processor →
  invoke_preprocess call file processor st = (Returned blocks, st1) →
  preprocessSync call derived_bom file config st
  = after_preprocess derived_bom file blocks st1.
Proof.
  intros Hconfig Hinvoke. unfold preprocessSync.
  rewrite (bind_returned _ _ _ _ _ (get_prop_of _ _ _ _ Hconfig)).
  unfold mbind at 1. unfold M_bind, try_catch.
  by rewrite (bind_returned _ _ _ _ _ Hinvoke).
Qed.

Lemma preprocessSync_raised st file config processor ex st1 :
  prop_of st config "processor" = Some processor →
  invoke_preprocess call file processor st = (Thrown (Raised ex), st1) →
  preprocessSync call derived_bom file config st
  = preprocess_failure ex st1.
Proof.
  intros Hconfig Hinvoke. unfold preprocessSync.
  rewrite (bind_returned _ _ _ _ _ (get_prop_of _ _ _ _ Hconfig)).
  unfold mbind at 1. unfold M_bind, try_catch.
  rewrite (bind_thrown _ _ _ _ _ Hinvoke).
  unfold mbind, M_bind.
  by destruct (preprocess_failure ex st1) as [[]].
Qed.

(** The call in the [try] block is the call of the function that the
    processor carries, on the body with its byte order mark and the path
    of the file. *)
Lemma invoke_preprocess_call st file processor f id body st0 path :
  prop_of st processor "preprocess" = Some (VRef f) →
  getBodyWithBOM file st = (Returned body, st0) →
  prop_of st0 file "path" = Some path →
  st0 !! f = Some (CFunction id) →
  invoke_preprocess call file processor st =
    match call id processor [body; path] st0 with
    | (inl blocks, st1) => (Returned blocks, st1)
    | (inr ex, st1) => (Thrown (Raised ex), st1)
    end.
Proof.
  intros Hpre Hbody Hpath Hf. unfold invoke_preprocess.
  rewrite (bind_returned _ _ _ _ _ (get_prop_of _ _ _ _ Hpre)).
  rewrite (bind_returned _ _ _ _ _ Hbody).
  rewrite (bind_returned _ _ _ _ _ (get_prop_of _ _ _ _ Hpath)).
  unfold call_function, mbind, M_bind, read. by rewrite Hf.
Qed.

(** A thrown value that carries no message is not turned into a
    diagnostic: the handler fails on [ex.message.replace]. *)
Lemma preprocess_failure_without_message st ex :
  prop_of st ex "message" = Some VUndefined →
  preprocess_failure ex st = (Thrown (Engine (ReadOfNullish "replace")), st).
Proof.
  intros Hm. unfold preprocess_failure.
  by rewrite (bind_returned _ _ _ _ _ (get_prop_of _ _ _ _ Hm)).
Qed.

Lemma preprocess_failure_error st ex m line column :
  prop_of st ex "message" = Some (VString m) →
  prop_of st ex "lineNumber" = Some line →
  prop_of st ex "column" = Some column →
  preprocess_failure ex st =
    (Returned (VRef (length st + 2)),
     st ++ [failure_record m line column;
            CArray [VRef (length st)];
            CObject [("ok", VBool false);
                     ("errors", VRef (length st + 1))]]).
Proof.
  intros Hm Hline Hcolumn. unfold preprocess_failure.
  rewrite (bind_returned _ _ _ _ _ (get_prop_of _ _ _ _ Hm)).
  rewrite (bind_returned _ _ _ _ _
             (eq_refl : replace_line_prefix (VString m) st = _)).
  rewrite (bind_returned _ _ _ _ _ (get_prop_of _ _ _ _ Hline)).
  rewrite (bind_returned _ _ _ _ _ (get_prop_of _ _ _ _ Hcolumn)).
  unfold mbind, M_bind, mret, M_ret, alloc, failure_record.
  rewrite !length_app. simpl. rewrite <- !(assoc_L (++)). simpl.
  by rewrite <- Nat.add_assoc.
Qed.

Lemma after_preprocess_thenable st file blocks then_ :
  prop_of st blocks "then" = Some then_ →
  typeof st then_ = "function" →
  after_preprocess derived_bom file blocks st =
    (Thrown (NewError (lit "Unsupported: Preprocessor returned a promise.")),
     st).
Proof.
  intros Hthen Hfun. unfold after_preprocess.
  rewrite (bind_returned _ _ _ _ _ (get_prop_of _ _ _ _ Hthen)).
  rewrite (bind_returned _ _ _ _ _ (eq_refl : get_store st = _)).
  by rewrite Hfun.
Qed.

Lemma after_preprocess_nullish st file blocks :
  blocks = VUndefined ∨ blocks = VNull →
  after_preprocess derived_bom file blocks st =
    (Thrown (Engine (ReadOfNullish "then")), st).
Proof. by intros [-> | ->]. Qed.

Lemma derive_block_string st file s i :
  derive_block derived_bom file (VString s) i st = (Returned (VString s), st).
Proof. done. Qed.

Lemma block_filename_ref st block name :
  block_filename st block = Some name →
  prop_of st block "filename" = Some (VString name)
  ∧ prop_of st block "text" = Some (block_text st block)
  ∧ ∀ s, block ≠ VString s.
Proof.
  unfold block_filename, block_text.
  destruct (prop_of st block "filename") as [[]|] eqn:E; try done.
  intros [= ->]. split; [done|].
  destruct block as [| | | | |l]; try done. simpl in *.
  by destruct (st !! l) as [[]|].
Qed.

Lemma derive_block_structured st file block i parentPath physicalPath name :
  prop_of st file "path" = Some (VString parentPath) →
  prop_of st file "physicalPath" = Some physicalPath →
  block_filename st block = Some name →
  derive_block derived_bom file block i st =
    (Returned (VRef (length st)),
     st ++ [derived_file derived_bom parentPath physicalPath i name
              (block_text st block)]).
Proof.
  intros Hpath Hphys (Hname & Htext & Hnot)%block_filename_ref.
  unfold derive_block.
  rewrite (bind_returned _ _ _ _ _ (eq_refl : get_store st = _)).
  assert (String.eqb (typeof st block) "string" = false) as ->.
  { apply String.eqb_neq. intros [s ->]%typeof_string. by eapply Hnot. }
  rewrite (bind_returned _ _ _ _ _ (get_prop_of _ _ _ _ Hpath)).
  rewrite (bind_returned _ _ _ _ _ (get_prop_of _ _ _ _ Hname)).
  rewrite (bind_returned _ _ _ _ _
             (eq_refl : to_string (VString name) st = _)).
  rewrite (bind_returned _ _ _ _ _
             (eq_refl : path_join (VString parentPath) _ st = _)).
  rewrite (bind_returned _ _ _ _ _ (get_prop_of _ _ _ _ Htext)).
  by rewrite (bind_returned _ _ _ _ _ (get_prop_of _ _ _ _ Hphys)).
Qed.

End Preprocess.

Section DerivedFiles.

Variable derived_bom : Val → bool.
Variables (st : Store) (parentPath : JsString) (physicalPath : Val).

Lemma block_filename_app k block name :
  block_filename st block = Some name →
  block_filename (st ++ k) block = Some name
  ∧ block_text (st ++ k) block = block_text st block.
Proof.
  intros (Hname & Htext & _)%block_filename_ref.
  unfold block_filename, block_text.
  by rewrite (prop_of_app _ k _ _ _ Hname), (prop_of_app _ k _ _ _ Htext), Htext.
Qed.

Lemma is_block_cases block :
  is_block st block = true →
  (∃ s, block = VString s)
  ∨ (∃ name, block_filename st block = Some name ∧ ∀ s, block ≠ VString s).
Proof.
  intros Hblock. destruct (decide (∃ s, block = VString s)) as [|Hnot];
    [by left|right].
  assert (is_Some (block_filename st block)) as [name Hname].
  { destruct block; try done; try by apply bool_decide_eq_true in Hblock.
    destruct Hnot. eauto. }
  exists name. split; [done|].
  by apply block_filename_ref in Hname as (_ & _ & ?).
Qed.

Lemma derived_files_structured block items i next :
  (∀ s, block ≠ VString s) →
  derived_files derived_bom st parentPath physicalPath (block :: items) i next
  = (VRef next
       :: (derived_files derived_bom st parentPath physicalPath items (S i)
             (S next)).1,
     derived_file derived_bom parentPath physicalPath i
       (default [] (block_filename st block)) (block_text st block)
       :: (derived_files derived_bom st parentPath physicalPath items (S i)
             (S next)).2).
Proof.
  intros Hnot. simpl.
  destruct (derived_files _ _ _ _ items (S i) (S next)) as [vs cs].
  destruct block; try done. by destruct (Hnot s).
Qed.

Lemma derived_files_string s items i next :
  derived_files derived_bom st parentPath physicalPath (VString s :: items)
    i next
  = (VString s
       :: (derived_files derived_bom st parentPath physicalPath items (S i)
             next).1,
     (derived_files derived_bom st parentPath physicalPath items (S i)
        next).2).
Proof.
  simpl. by destruct (derived_files _ _ _ _ items (S i) next) as [vs cs].
Qed.

Lemma derived_files_length items i next :
  length (derived_files derived_bom st parentPath physicalPath items i next).1
  = length items.
Proof.
  revert i next. induction items as [|block items IH]; intros i next; [done|].
  destruct (decide (∃ s, block = VString s)) as [[s ->]|Hnot].
  - rewrite derived_files_string. simpl. by rewrite IH.
  - rewrite derived_files_structured by (intros s ->; apply Hnot; eauto).
    simpl. by rewrite IH.
Qed.

Lemma derived_files_lookup_string items i next j s :
  items !! j = Some (VString s) →
  (derived_files derived_bom st parentPath physicalPath items i next).1 !! j
  = Some (VString s).
Proof.
  revert i next j.
  induction items as [|block items IH]; intros i next j; [done|].
  destruct (decide (∃ s, block = VString s)) as [[s' ->]|Hnot].
  - rewrite derived_files_string. destruct j; simpl; [done|]. apply IH.
  - rewrite derived_files_structured by (intros s' ->; apply Hnot; eauto).
    destruct j; simpl; [|apply IH]. intros [= ->]. destruct Hnot. eauto.
Qed.

Lemma derived_files_lookup_structured items i next j block :
  items !! j = Some block →
  (∀ s, block ≠ VString s) →
  ∃ n,
    (derived_files derived_bom st parentPath physicalPath items i next).1 !! j
    = Some (VRef (next + n))
    ∧ (derived_files derived_bom st parentPath physicalPath items i next).2 !! n
      = Some (derived_file derived_bom parentPath physicalPath (i + j)
                (default [] (block_filename st block)) (block_text st block)).
Proof.
  revert i next j.
  induction items as [|b items IH]; intros i next j Hj Hblock; [done|].
  destruct (decide (∃ s, b = VString s)) as [[s' ->]|Hnot].
  - rewrite derived_files_string. destruct j; simpl in *.
    + injection Hj as <-. by destruct (Hblock s').
    + destruct (IH (S i) next j Hj Hblock) as (n & Hv & Hc).
      exists n. by rewrite Hv, Hc, Nat.add_succ_r.
  - rewrite derived_files_structured by (intros s' ->; apply Hnot; eauto).
    destruct j; simpl in *.
    + injection Hj as ->. exists 0. by rewrite !Nat.add_0_r.
    + destruct (IH (S i) (S next) j Hj Hblock) as (n & Hv & Hc).
      exists (S n). simpl. by rewrite Hv, Hc, !Nat.add_succ_r.
Qed.

Lemma map_items_blocks file items :
  prop_of st file "path" = Some (VString parentPath) →
  prop_of st file "physicalPath" = Some physicalPath →
  Forall (λ block, is_block st block = true) items →
  ∀ i k,
    map_items (derive_block derived_bom file) items i (st ++ k)
    = (Returned
         (derived_files derived_bom st parentPath physicalPath items i
            (length (st ++ k))).1,
       st ++ k
         ++ (derived_files derived_bom st parentPath physicalPath items i
               (length (st ++ k))).2).
Proof.
  intros Hpath Hphys. induction 1 as [|block items Hblock _ IH]; intros i k.
  { simpl. unfold mret, M_ret. by rewrite app_nil_r. }
  apply is_block_cases in Hblock as [[s ->]|(name & Hname & Hnot)].
  - rewrite derived_files_string. simpl.
    rewrite (bind_returned _ _ _ _ _ (derive_block_string _ _ _ _ _)).
    by rewrite (bind_returned _ _ _ _ _ (IH (S i) k)).
  - rewrite derived_files_structured by done. simpl.
    destruct (block_filename_app k _ _ Hname) as [Hname' Htext'].
    rewrite (bind_returned _ _ _ _ _
               (derive_block_structured _ _ _ _ i _ _ _
                  (prop_of_app _ k _ _ _ Hpath)
                  (prop_of_app _ k _ _ _ Hphys) Hname')).
    rewrite Htext', Hname. simpl.
    rewrite <- (assoc_L (++)).
    rewrite (bind_returned _ _ _ _ _ (IH (S i) (k ++ [_]))).
    unfold mret, M_ret. rewrite !length_app. simpl.
    rewrite Nat.add_1_r, <- Nat.add_succ_r.
    by rewrite <- !(assoc_L (++)).
Qed.

End DerivedFiles.

(** ** Joining paths that need no normalisation *)

Module PathFacts.

Import Path.
Local Open Scope N_scope.

Lemma split_nonempty s : split s ≠ [].
Proof. destruct s as [|c s]; simpl; [done|]. by repeat case_match. Qed.

Lemma split_cons_slash s : split (SLASH :: s) = [] :: split s.
Proof. done. Qed.

Lemma split_app_slash a b : split (a ++ SLASH :: b) = split a ++ split b.
Proof.
  induction a as [|c a IH]; [done|]. simpl. rewrite IH.
  destruct (c =? SLASH); [done|].
  destruct (split a) as [|seg segs] eqn:E; [by destruct (split_nonempty a)|].
  done.
Qed.

Lemma join_segments_cons seg segs :
  segs ≠ [] → join_segments (seg :: segs) = seg ++ SLASH :: join_segments segs.
Proof. by destruct segs. Qed.

Lemma join_split s : join_segments (split s) = s.
Proof.
  induction s as [|c s IH]; [done|]. simpl.
  destruct (c =? SLASH) eqn:Ec.
  - apply N.eqb_eq in Ec as ->.
    rewrite join_segments_cons by apply split_nonempty. by rewrite IH.
  - destruct (split s) as [|seg segs] eqn:E;
      [by destruct (split_nonempty s)|].
    destruct segs as [|seg' segs]; simpl in *; by rewrite <- IH.
Qed.

Lemma push_plain allow stack seg :
  plain seg = true → push_segment allow stack seg = seg :: stack.
Proof.
  unfold plain, push_segment. intros H%negb_true_iff.
  apply orb_false_iff in H as [H ->]. by rewrite H.
Qed.

Lemma foldl_push_plain allow segs stack :
  forallb plain segs = true →
  foldl (push_segment allow) stack segs = reverse segs ++ stack.
Proof.
  revert stack. induction segs as [|seg segs IH]; intros stack; [done|].
  simpl. intros [Hseg Hsegs]%andb_true_iff.
  rewrite push_plain, IH by done.
  by rewrite reverse_cons, <- (assoc_L (++)).
Qed.

Lemma normalizeString_plain allow s :
  plain_segments s = true → normalizeString s allow = s.
Proof.
  intros H. unfold normalizeString.
  rewrite foldl_push_plain, app_nil_r, reverse_involutive by done.
  apply join_split.
Qed.

Lemma normalizeString_slash_plain allow s :
  plain_segments s = true → normalizeString (SLASH :: s) allow = s.
Proof.
  intros H. unfold normalizeString. rewrite split_cons_slash. simpl.
  change (push_segment allow [] []) with (@nil (list N)).
  rewrite foldl_push_plain, app_nil_r, reverse_involutive by done.
  apply join_split.
Qed.

Lemma plain_segments_app a b :
  plain_segments a = true → plain_segments b = true →
  plain_segments (a ++ SLASH :: b) = true.
Proof.
  unfold plain_segments. intros Ha Hb.
  by rewrite split_app_slash, forallb_app, Ha, Hb.
Qed.

(** A path of plain segments neither starts nor ends with a separator. *)
Lemma plain_segments_start s :
  plain_segments s = true → s ≠ [] ∧ starts_with_slash s = false.
Proof.
  unfold plain_segments. destruct s as [|c s]; [done|]. simpl.
  destruct (c =? SLASH); [done|]. done.
Qed.

Lemma plain_segments_end s :
  plain_segments s = true → ends_with_slash s = false.
Proof.
  intros Hplain. destruct (ends_with_slash s) eqn:E; [|done].
  unfold ends_with_slash in E.
  destruct (last s) as [c|] eqn:El; [|done].
  apply last_Some in El as [s' ->]. apply N.eqb_eq in E as ->.
  unfold plain_segments in Hplain.
  rewrite split_app_slash, forallb_app in Hplain. simpl in Hplain.
  by rewrite andb_false_r in Hplain.
Qed.

Lemma ends_with_slash_cons c s :
  s ≠ [] → ends_with_slash (c :: s) = ends_with_slash s.
Proof. by destruct s. Qed.

Lemma normalize_plain s :
  plain_path s = true → normalize s = s.
Proof.
  destruct s as [|c s]; [done|]. unfold plain_path.
  destruct (c =? SLASH) eqn:Ec; intros Hplain.
  - apply N.eqb_eq in Ec as ->.
    destruct (plain_segments_start _ Hplain) as [Hne _].
    unfold normalize. simpl starts_with_slash. cbv iota. simpl negb.
    rewrite normalizeString_slash_plain by done.
    rewrite ends_with_slash_cons, plain_segments_end by done.
    by destruct s.
  - destruct (plain_segments_start _ Hplain) as [_ Hstart].
    unfold normalize. rewrite Hstart. simpl negb. cbv iota.
    rewrite normalizeString_plain, plain_segments_end by done.
    done.
Qed.

(** Joining a path of plain segments with a relative path of plain
    segments puts one separator between the two and changes neither. *)
Lemma join_plain parent name :
  plain_path parent = true →
  plain_segments name = true →
  join parent name = parent ++ SLASH :: name.
Proof.
  intros Hparent Hname.
  destruct (plain_segments_start _ Hname) as [Hne _].
  destruct parent as [|c parent]; [done|].
  destruct name as [|d name]; [done|].
  unfold join. apply normalize_plain.
  unfold plain_path in *. simpl.
  destruct (c =? SLASH);
    [by apply plain_segments_app
    |by apply (plain_segments_app (c :: parent))].
Qed.

End PathFacts.

(** ** The leading line number of an error message *)

Module JsStrFacts.

Import JsStr.
Local Open Scope N_scope.

Lemma eq_ci_lower lower c :
  97 ≤ lower ≤ 122 → eq_ci lower c = true ↔ to_lower c = lower.
Proof.
  intros Hl. unfold eq_ci, to_lower.
  rewrite orb_true_iff, !N.eqb_eq.
  destruct ((65 <=? c) && (c <=? 90)) eqn:E.
  - apply andb_true_iff in E as [?%N.leb_le ?%N.leb_le]. lia.
  - apply andb_false_iff in E as [?%N.leb_gt | ?%N.leb_gt]; lia.
Qed.

Lemma to_lower_space c : to_lower c = 32 ↔ c = 32.
Proof.
  unfold to_lower. destruct ((65 <=? c) && (c <=? 90)) eqn:E; [|done].
  apply andb_true_iff in E as [?%N.leb_le ?%N.leb_le]. lia.
Qed.

Lemma skip_digits_app digits s :
  Forall (λ c, is_digit c = true) digits →
  skip_digits (digits ++ s) = skip_digits s.
Proof. induction 1 as [|c digits Hc _ IH]; simpl; [done|]. by rewrite Hc. Qed.

Lemma skip_digits_split s :
  ∃ digits, s = digits ++ skip_digits s
            ∧ Forall (λ c, is_digit c = true) digits.
Proof.
  induction s as [|c s (digits & Hs & Hd)]; [by exists []|]. simpl.
  destruct (is_digit c) eqn:Ec.
  - exists (c :: digits). split; [by rewrite <- app_comm_cons, <- Hs|].
    by constructor.
  - by exists [].
Qed.

Lemma match_line_prefix_pattern s rest :
  match_line_prefix s = Some rest ↔ line_pattern s rest.
Proof.
  split.
  - destruct s as [|l [|i [|n [|e [|sp [|d s]]]]]]; try done. simpl.
    destruct (_ && _) eqn:E; [|done].
    apply andb_true_iff in E as [E Hd0].
    apply andb_true_iff in E as [E Hsp].
    apply andb_true_iff in E as [E He].
    apply andb_true_iff in E as [E Hn].
    apply andb_true_iff in E as [Hl Hi].
    apply eq_ci_lower in Hl, Hi, Hn, He; try lia.
    apply N.eqb_eq in Hsp as ->.
    destruct (skip_digits s) as [|c rest'] eqn:Es; [done|].
    destruct (c =? 58) eqn:Ec; [|done]. apply N.eqb_eq in Ec as ->.
    intros [= ->].
    destruct (skip_digits_split s) as (digits & Hs & Hd). rewrite Es in Hs.
    exists [l; i; n; e; 32], (d :: digits). repeat split.
    + simpl. by rewrite Hs.
    + simpl. by rewrite Hl, Hi, Hn, He.
    + done.
    + by constructor.
  - intros (word & digits & -> & Hword & Hne & Hd).
    destruct word as [|l [|i [|n [|e [|sp [|]]]]]]; try done.
    change (lit "line ") with [108; 105; 110; 101; 32] in Hword.
    injection Hword as Hl Hi Hn He Hsp.
    apply eq_ci_lower in Hl, Hi, Hn, He; try lia.
    apply to_lower_space in Hsp as ->.
    destruct digits as [|d digits]; [done|].
    apply Forall_cons in Hd as [Hd Hdigits].
    simpl. rewrite Hl, Hi, Hn, He, Hd. simpl.
    by rewrite skip_digits_app.
Qed.

(** [replace_line_prefix] removes the pattern where the message begins
    with it and leaves every other message as it is. *)
Lemma replace_line_prefix_pattern s :
  (∀ rest, line_pattern s rest → replace_line_prefix s = rest)
  ∧ ((∀ rest, ¬ line_pattern s rest) → replace_line_prefix s = s).
Proof.
  unfold replace_line_prefix. split.
  - intros rest H%match_line_prefix_pattern. by rewrite H.
  - intros Hnone. destruct (match_line_prefix s) as [rest|] eqn:E; [|done].
    by apply match_line_prefix_pattern, Hnone in E.
Qed.

Lemma trim_start_split s :
  ∃ pre, s = pre ++ trim_start s
         ∧ Forall (λ c, is_white_space c = true) pre
         ∧ ∀ c, head (trim_start s) = Some c → is_white_space c = false.
Proof.
  induction s as [|c s (pre & Hs & Hpre & Hhead)].
  { by exists []. }
  simpl. destruct (is_white_space c) eqn:Ec.
  - exists (c :: pre). repeat split; [|by constructor|done].
    by rewrite <- app_comm_cons, <- Hs.
  - exists []. repeat split; [done|]. by intros ? [= <-].
Qed.

(** [trim s] is [s] without the white space around it. *)
Lemma trim_surrounding s :
  ∃ pre post,
    s = pre ++ trim s ++ post
    ∧ Forall (λ c, is_white_space c = true) pre
    ∧ Forall (λ c, is_white_space c = true) post
    ∧ (∀ c, head (trim s) = Some c → is_white_space c = false)
    ∧ (∀ c, last (trim s) = Some c → is_white_space c = false).
Proof.
  destruct (trim_start_split s) as (pre & Hs & Hpre & Hhead).
  destruct (trim_start_split (reverse (trim_start s)))
    as (post & Ht & Hpost & Hlast).
  unfold trim, trim_end.
  set (t := trim_start s) in *.
  set (u := trim_start (reverse t)) in *.
  assert (Ht' : t = reverse u ++ reverse post).
  { by rewrite <- reverse_app, <- Ht, reverse_involutive. }
  exists pre, (reverse post). repeat split.
  - by rewrite <- Ht'.
  - done.
  - by apply Forall_reverse.
  - intros c Hc. apply Hhead. rewrite Ht'.
    destruct (reverse u); [done|]. done.
  - intros c Hc. apply Hlast. by rewrite <- last_reverse, Hc.
Qed.

End JsStrFacts.

Section Files.

Variable call : nat → Val → list Val → Store → (Val + Val) * Store.
Variable derived_bom : Val → bool.

Lemma after_preprocess_blocks st file blocks items parentPath physicalPath :
  items_of st blocks = Some items →
  prop_of st file "path" = Some (VString parentPath) →
  prop_of st file "physicalPath" = Some physicalPath →
  Forall (λ block, is_block st block = true) items →
  after_preprocess derived_bom file blocks st =
    let files :=
      derived_files derived_bom st parentPath physicalPath items 0 (length st)
    in
    (Returned (VRef (S (length st + length files.2))),
     st ++ files.2
       ++ [CArray files.1;
           CObject [("ok", VBool true);
                    ("files", VRef (length st + length files.2))]]).
Proof.
  intros Hitems Hpath Hphys Hblocks.
  destruct blocks as [| | | | |a]; try done. simpl in Hitems.
  destruct (st !! a) as [[]|] eqn:Ea; try done. injection Hitems as ->.
  unfold after_preprocess.
  assert (Hthen : get_prop (VRef a) "then" st = (Returned VUndefined, st)).
  { unfold get_prop, mbind, M_bind, read. by rewrite Ea. }
  rewrite (bind_returned _ _ _ _ _ Hthen).
  rewrite (bind_returned _ _ _ _ _ (eq_refl : get_store st = _)).
  change (String.eqb (typeof st VUndefined) "function") with false.
  cbv iota.
  pose proof (map_items_blocks derived_bom st parentPath physicalPath file
                items Hpath Hphys Hblocks 0 []) as Hrun.
  simpl in Hrun. rewrite app_nil_r in Hrun.
  set (files := derived_files derived_bom st parentPath physicalPath items 0
                  (length st)) in *.
  assert (Hmap : array_map (VRef a) (derive_block derived_bom file) st
            = (Returned (VRef (length st + length files.2)),
               st ++ files.2 ++ [CArray files.1])).
  { unfold array_map.
    rewrite (bind_returned _ _ _ _ _ (eq_refl : get_store st = _)).
    assert (Hread : read a st = (Returned (CArray items), st))
      by (unfold read; by rewrite Ea).
    rewrite (bind_returned _ _ _ _ _ Hread).
    rewrite (bind_returned _ _ _ _ _ Hrun).
    unfold mbind, M_bind, mret, M_ret, alloc.
    by rewrite length_app, (assoc_L (++)). }
  rewrite (bind_returned _ _ _ _ _ Hmap).
  unfold mbind, M_bind, mret, M_ret, alloc. simpl.
  rewrite !length_app. simpl. rewrite <- !(assoc_L (++)). simpl.
  do 3 f_equal. lia.
Qed.

Lemma preprocessSync_files st file config processor blocks st1 items
    parentPath physicalPath :
  prop_of st config "processor" = Some processor →
  invoke_preprocess call file processor st = (Returned blocks, st1) →
  items_of st1 blocks = Some items →
  prop_of st1 file "path" = Some (VString parentPath) →
  prop_of st1 file "physicalPath" = Some physicalPath →
  Forall (λ block, is_block st1 block = true) items →
  ∃ result st2 files,
    preprocessSync call derived_bom file config st = (Returned result, st2)
    ∧ st1 `prefix_of` st2
    ∧ prop_of st2 result "ok" = Some (VBool true)
    ∧ prop_of st2 result "errors" = Some VUndefined
    ∧ result_files st2 result = Some files
    ∧ length files = length items
    ∧ (∀ j s, items !! j = Some (VString s) → files !! j = Some (VString s))
    ∧ (∀ j block name,
         items !! j = Some block →
         block_filename st1 block = Some name →
         ∃ l, files !! j = Some (VRef l)
              ∧ st2 !! l
                = Some (derived_file derived_bom parentPath physicalPath j
                          name (block_text st1 block))).
Proof.
  intros Hconfig Hinvoke Hitems Hpath Hphys Hblocks.
  pose proof (after_preprocess_blocks _ _ _ _ _ _ Hitems Hpath Hphys Hblocks)
    as Hafter.
  rewrite <- (preprocessSync_returned _ _ _ _ _ _ _ _ Hconfig Hinvoke)
    in Hafter.
  set (files := derived_files derived_bom st1 parentPath physicalPath items 0
                  (length st1)) in *.
  simpl in Hafter. eexists _, _, files.1. split; [exact Hafter|].
  assert (Hresult : ∀ c d, (st1 ++ files.2 ++ [c; d])
                           !! S (length st1 + length files.2) = Some d).
  { intros c d. rewrite (assoc_L (++)), lookup_app_r; rewrite length_app; [|lia].
    by replace (S (length st1 + length files.2)
                - (length st1 + length files.2)) with 1 by lia. }
  assert (Harray : ∀ c d, (st1 ++ files.2 ++ [c; d])
                          !! (length st1 + length files.2) = Some c).
  { intros c d. rewrite (assoc_L (++)), lookup_app_r; rewrite length_app; [|lia].
    by rewrite Nat.sub_diag. }
  split; [by apply prefix_app_r|].
  unfold result_files, prop_of, items_of. rewrite Hresult. simpl.
  rewrite Harray. simpl.
  repeat split; [apply derived_files_length| |].
  - intros j s Hj. by apply derived_files_lookup_string.
  - intros j block name Hj Hname.
    destruct (block_filename_ref _ _ _ Hname) as (_ & _ & Hnot).
    destruct (derived_files_lookup_structured derived_bom st1 parentPath
                physicalPath items 0 (length st1) j block Hj Hnot)
      as (n & Hv & Hc).
    exists (length st1 + n). split; [done|].
    rewrite lookup_app_r by lia.
    replace (length st1 + n - length st1) with n by lia.
    rewrite (lookup_app_l_Some _ _ _ _ Hc). by rewrite Hname.
Qed.

End Files.

Section Failure.

Variable call : nat → Val → list Val → Store → (Val + Val) * Store.
Variable derived_bom : Val → bool.

Lemma prop_of_object st v name x name' :
  prop_of st v name = Some x → is_Some (prop_of st v name').
Proof.
  destruct v as [| | | | |l]; simpl; try done.
  destruct (st !! l) as [[]|]; by eauto.
Qed.

Lemma lookup_prop_absent props name :
  name ∉ props.*1 → lookup_prop props name = VUndefined.
Proof.
  induction props as [|[k v] props IH]; [done|]. simpl.
  intros [Hk Hprops]%not_elem_of_cons.
  destruct (String.eqb k name) eqn:E; [|by apply IH].
  by apply String.eqb_eq in E.
Qed.

Lemma preprocessSync_caught st file config processor ex st1 m :
  prop_of st config "processor" = Some processor →
  invoke_preprocess call file processor st = (Thrown (Raised ex), st1) →
  prop_of st1 ex "message" = Some (VString m) →
  ∃ line column,
    prop_of st1 ex "lineNumber" = Some line
    ∧ prop_of st1 ex "column" = Some column
    ∧ preprocessSync call derived_bom file config st =
        (Returned (VRef (length st1 + 2)),
         st1 ++ [failure_record m line column;
                 CArray [VRef (length st1)];
                 CObject [("ok", VBool false);
                          ("errors", VRef (length st1 + 1))]]).
Proof.
  intros Hconfig Hinvoke Hm.
  destruct (prop_of_object _ _ _ _ "lineNumber" Hm) as [line Hline].
  destruct (prop_of_object _ _ _ _ "column" Hm) as [column Hcolumn].
  exists line, column. repeat split; [done..|].
  rewrite (preprocessSync_raised _ _ _ _ _ _ _ _ Hconfig Hinvoke).
  by apply preprocess_failure_error.
Qed.

(** What the caller of [preprocessSync] reads from the result of a
    failed preprocessing. *)
Lemma preprocessSync_caught_result st file config processor ex st1 m :
  prop_of st config "processor" = Some processor →
  invoke_preprocess call file processor st = (Thrown (Raised ex), st1) →
  prop_of st1 ex "message" = Some (VString m) →
  ∃ result st2 record line column,
    preprocessSync call derived_bom file config st = (Returned result, st2)
    ∧ st2 = st1 ++ drop (length st1) st2
    ∧ length st2 = length st1 + 3
    ∧ prop_of st1 ex "lineNumber" = Some line
    ∧ prop_of st1 ex "column" = Some column
    ∧ prop_of st2 result "ok" = Some (VBool false)
    ∧ prop_of st2 result "files" = Some VUndefined
    ∧ result_errors st2 result = Some [record]
    ∧ (∀ name, prop_of st2 record name
               = Some (match failure_record m line column with
                       | CObject props => lookup_prop props name
                       | _ => VUndefined
                       end)).
Proof.
  intros Hconfig Hinvoke Hm.
  destruct (preprocessSync_caught _ _ _ _ _ _ _ Hconfig Hinvoke Hm)
    as (line & column & Hline & Hcolumn & Hrun).
  eexists _, _, (VRef (length st1)), line, column.
  split; [exact Hrun|].
  rewrite drop_app_length, length_app. simpl.
  repeat split; [done..| | | |].
  - unfold prop_of. rewrite lookup_app_r by lia.
    by replace (length st1 + 2 - length st1) with 2 by lia.
  - unfold prop_of. rewrite lookup_app_r by lia.
    by replace (length st1 + 2 - length st1) with 2 by lia.
  - unfold result_errors, prop_of. rewrite lookup_app_r by lia.
    replace (length st1 + 2 - length st1) with 2 by lia. simpl.
    rewrite lookup_app_r by lia.
    by replace (length st1 + 1 - length st1) with 1 by lia.
  - intros name. unfold prop_of. rewrite lookup_app_r by lia.
    by rewrite Nat.sub_diag.
Qed.

End Failure.

(** ** What the service writes to the store *)

Create HintDb alloc discriminated.

Lemma only_allocates_keeps {A} base (m : M A) :
  only_allocates m → keeps base m (λ _, True).
Proof. intros Hm st Hst. split; [|done]. by etrans. Qed.

Lemma keeps_only_allocates {A} (m : M A) Q :
  (∀ base, keeps base m Q) → only_allocates m.
Proof. intros Hm st. by apply (Hm st st). Qed.

Lemma keeps_bind {A B} base (m : M A) (f : A → M B) Q R :
  keeps base m Q → (∀ a, Q a → keeps base (f a) R) → keeps base (m ≫= f) R.
Proof.
  intros Hm Hf st Hst. destruct (Hm st Hst) as [Hpre HQ].
  unfold mbind, M_bind. destruct (m st) as [[a|e|] st']; simpl in *; [|done..].
  by apply (Hf a); [apply HQ|].
Qed.

Lemma keeps_alloc base c : keeps base (alloc c) (λ l, length base ≤ l).
Proof.
  intros st Hst. simpl. split; [by apply prefix_app_r|].
  intros a [= <-]. by apply prefix_length.
Qed.

Lemma bytes_of_store v st : (bytes_of v st).2 = st.
Proof.
  destruct v as [| | | | |l]; simpl; try done.
  unfold mbind, M_bind, read. by destruct (st !! l) as [[]|].
Qed.

Lemma keeps_typed_set base target source offset :
  length base ≤ target →
  keeps base (typed_set target source offset) (λ _, True).
Proof.
  intros Htarget st [k ->]. split; [|done].
  unfold typed_set, mbind, M_bind, write.
  pose proof (bytes_of_store (VRef target) (base ++ k)) as H1.
  destruct (bytes_of (VRef target) (base ++ k)) as [[old|e|] st1];
    simpl in H1; subst st1; simpl; try by apply prefix_app_r.
  pose proof (bytes_of_store source (base ++ k)) as H2.
  destruct (bytes_of source (base ++ k)) as [[new|e|] st2];
    simpl in H2; subst st2; simpl; try by apply prefix_app_r.
  destruct (decide _); simpl; [|by apply prefix_app_r].
  rewrite insert_app_r_alt by done. by apply prefix_app_r.
Qed.

Lemma only_allocates_bind {A B} (m : M A) (f : A → M B) :
  only_allocates m → (∀ a, only_allocates (f a)) → only_allocates (m ≫= f).
Proof.
  intros Hm Hf st. unfold mbind, M_bind. specialize (Hm st).
  destruct (m st) as [[a|e|] st']; simpl in *; [|done..].
  etrans; [done|]. apply Hf.
Qed.

Lemma only_allocates_ret {A} (a : A) : only_allocates (mret a).
Proof. by intros st. Qed.

Lemma only_allocates_throw {A} e : only_allocates (@throw A e).
Proof. by intros st. Qed.

Lemma only_allocates_unmodelled {A} : only_allocates (@unmodelled A).
Proof. by intros st. Qed.

Lemma only_allocates_get_store : only_allocates get_store.
Proof. by intros st. Qed.

Lemma only_allocates_alloc c : only_allocates (alloc c).
Proof. intros st. by apply prefix_app_r. Qed.

Lemma only_allocates_read l : only_allocates (read l).
Proof. intros st. unfold read. by destruct (st !! l). Qed.

#[global] Hint Resolve only_allocates_ret only_allocates_throw
  only_allocates_unmodelled only_allocates_get_store only_allocates_alloc
  only_allocates_read : alloc.

(** One step of a proof that a computation only allocates. *)
Ltac alloc_step :=
  match goal with
  | |- only_allocates (_ ≫= _) => apply only_allocates_bind; [|intros ?]
  | |- only_allocates (if ?b then _ else _) => destruct b
  | |- only_allocates (match ?x with _ => _ end) => destruct x
  | |- only_allocates _ => solve [eauto with alloc]
  end.

Lemma only_allocates_get_prop v name : only_allocates (get_prop v name).
Proof. unfold get_prop. repeat alloc_step. Qed.

Lemma only_allocates_to_string v : only_allocates (to_string v).
Proof. unfold to_string. repeat alloc_step. Qed.

Lemma only_allocates_path_join a b : only_allocates (path_join a b).
Proof. unfold path_join. repeat alloc_step. Qed.

Lemma only_allocates_replace v : only_allocates (replace_line_prefix v).
Proof. unfold replace_line_prefix. repeat alloc_step. Qed.

Lemma only_allocates_bytes_of v : only_allocates (bytes_of v).
Proof. unfold bytes_of. repeat alloc_step. Qed.

#[global] Hint Resolve only_allocates_get_prop only_allocates_to_string
  only_allocates_path_join only_allocates_replace only_allocates_bytes_of
  : alloc.

Lemma only_allocates_map_items callback items i :
  (∀ item j, only_allocates (callback item j)) →
  only_allocates (map_items callback items i).
Proof.
  intros Hcallback. revert i.
  induction items as [|item items IH]; intros i; simpl; repeat alloc_step.
Qed.

Lemma only_allocates_array_map v callback :
  (∀ item j, only_allocates (callback item j)) →
  only_allocates (array_map v callback).
Proof.
  intros Hcallback. pose proof (only_allocates_map_items callback).
  unfold array_map. repeat alloc_step.
Qed.

Lemma only_allocates_typed_length v : only_allocates (typed_length v).
Proof. unfold typed_length. repeat alloc_step. Qed.

Lemma only_allocates_getBodyWithBOM file : only_allocates (getBodyWithBOM file).
Proof.
  pose proof only_allocates_typed_length.
  apply (keeps_only_allocates _ (λ _, True)). intros base.
  unfold getBodyWithBOM.
  eapply keeps_bind; [apply only_allocates_keeps; eauto with alloc|].
  intros bom _. destruct (negb (truthy bom));
    [apply only_allocates_keeps; eauto with alloc|].
  eapply keeps_bind; [apply only_allocates_keeps; eauto with alloc|].
  intros body _.
  eapply keeps_bind; [apply only_allocates_keeps; eauto with alloc|].
  intros st _. destruct (String.eqb _ _).
  { apply only_allocates_keeps. repeat alloc_step. }
  eapply keeps_bind; [apply keeps_alloc|]. intros bom' _.
  do 3 (eapply keeps_bind; [apply only_allocates_keeps; eauto with alloc|];
        intros ? _).
  eapply keeps_bind; [apply keeps_alloc|]. intros bodyWithBOM Hfresh.
  eapply keeps_bind; [by apply keeps_typed_set|]. intros _ _.
  do 2 (eapply keeps_bind; [apply only_allocates_keeps; eauto with alloc|];
        intros ? _).
  eapply keeps_bind; [by apply keeps_typed_set|]. intros _ _.
  apply only_allocates_keeps. eauto with alloc.
Qed.

#[global] Hint Resolve only_allocates_getBodyWithBOM : alloc.

Section Calls.

Variable call : nat → Val → list Val → Store → (Val + Val) * Store.
Variable derived_bom : Val → bool.

Lemma around_call_only_allocates {A} (m : M A) :
  only_allocates m → allocates_around_call call m.
Proof. intros Hm st. by left. Qed.

Lemma around_call_bind_l {A B} (m : M A) (f : A → M B) :
  only_allocates m → (∀ a, allocates_around_call call (f a)) →
  allocates_around_call call (m ≫= f).
Proof.
  intros Hm Hf st. unfold mbind, M_bind. specialize (Hm st).
  destruct (m st) as [[a|e|] st']; simpl in *; [|by left..].
  destruct (Hf a st') as [Hpre|(g & this & args & st0 & Hpre & Hpost)].
  - left. by etrans.
  - right. exists g, this, args, st0. split; [by etrans|done].
Qed.

Lemma around_call_bind_r {A B} (m : M A) (f : A → M B) :
  allocates_around_call call m → (∀ a, only_allocates (f a)) →
  allocates_around_call call (m ≫= f).
Proof.
  intros Hm Hf st. unfold mbind, M_bind. specialize (Hm st).
  destruct (m st) as [[a|e|] st']; simpl in *; [|done..].
  destruct Hm as [Hpre|(g & this & args & st0 & Hpre & Hpost)].
  - left. etrans; [done|]. apply Hf.
  - right. exists g, this, args, st0. split; [done|].
    etrans; [done|]. apply Hf.
Qed.

Lemma around_call_try_catch {A} (body : M A) (handler : Val → M A) :
  allocates_around_call call body → (∀ ex, only_allocates (handler ex)) →
  allocates_around_call call (try_catch body handler).
Proof.
  intros Hbody Hhandler st. unfold try_catch. specialize (Hbody st).
  destruct (body st) as [[a|[| |ex]|] st']; simpl in *; try done.
  destruct Hbody as [Hpre|(g & this & args & st0 & Hpre & Hpost)].
  - left. etrans; [done|]. apply Hhandler.
  - right. exists g, this, args, st0. split; [done|].
    etrans; [done|]. apply Hhandler.
Qed.

Lemma around_call_function name f this args :
  allocates_around_call call (call_function call name f this args).
Proof.
  intros st. unfold call_function.
  destruct f as [| | | | |l]; try by left.
  unfold mbind, M_bind, read.
  destruct (st !! l) as [[| | |id]|]; try by left.
  right. exists id, this, args, st. split; [done|].
  by destruct (call id this args st) as [[]].
Qed.

Lemma only_allocates_preprocess_failure ex :
  only_allocates (preprocess_failure ex).
Proof. unfold preprocess_failure. repeat alloc_step. Qed.

Lemma only_allocates_derive_block file block i :
  only_allocates (derive_block derived_bom file block i).
Proof. unfold derive_block, new_VFile. repeat alloc_step. Qed.

Lemma only_allocates_after_preprocess file blocks :
  only_allocates (after_preprocess derived_bom file blocks).
Proof.
  pose proof (only_allocates_derive_block file).
  pose proof (only_allocates_array_map).
  unfold after_preprocess. repeat alloc_step.
Qed.

Lemma around_call_invoke_preprocess file processor :
  allocates_around_call call (invoke_preprocess call file processor).
Proof.
  unfold invoke_preprocess.
  do 3 (apply around_call_bind_l; [eauto with alloc|intros ?]).
  apply around_call_function.
Qed.

Lemma around_call_preprocessSync file config :
  allocates_around_call call (preprocessSync call derived_bom file config).
Proof.
  unfold preprocessSync.
  apply around_call_bind_l; [eauto with alloc|intros processor].
  apply around_call_bind_r.
  - apply around_call_try_catch.
    + apply around_call_bind_r; [|eauto with alloc].
      apply around_call_invoke_preprocess.
    + intros ex. pose proof (only_allocates_preprocess_failure ex).
      repeat alloc_step.
  - intros [blocks|result]; [|eauto with alloc].
    apply only_allocates_after_preprocess.
Qed.

Lemma around_call_postprocessSync file messages config :
  allocates_around_call call (postprocessSync call file messages config).
Proof.
  unfold postprocessSync.
  do 2 (apply around_call_bind_l; [eauto with alloc|intros ?]).
  destruct (truthy _); [|apply around_call_only_allocates; eauto with alloc].
  do 2 (apply around_call_bind_l; [eauto with alloc|intros ?]).
  apply around_call_function.
Qed.

Lemma around_call_pure {A} (m : M A) :
  call_only_allocates call → allocates_around_call call m → only_allocates m.
Proof.
  intros Hcall Hm st.
  destruct (Hm st) as [Hpre|(g & this & args & st0 & Hpre & Hpost)];
    [done|].
  etrans; [done|]. etrans; [apply Hcall|done].
Qed.

Lemma postprocessSync_delegates st file messages config processor f id path :
  prop_of st config "processor" = Some processor →
  prop_of st processor "postprocess" = Some (VRef f) →
  st !! f = Some (CFunction id) →
  prop_of st file "path" = Some path →
  postprocessSync call file messages config st =
    match call id processor [messages; path] st with
    | (inl v, st') => (Returned v, st')
    | (inr ex, st') => (Thrown (Raised ex), st')
    end.
Proof.
  intros Hconfig Hpost Hf Hpath. unfold postprocessSync.
  rewrite (bind_returned _ _ _ _ _ (get_prop_of _ _ _ _ Hconfig)).
  rewrite (bind_returned _ _ _ _ _ (get_prop_of _ _ _ _ Hpost)).
  change (truthy (VRef f)) with true. cbv iota.
  rewrite (bind_returned _ _ _ _ _ (get_prop_of _ _ _ _ Hpost)).
  rewrite (bind_returned _ _ _ _ _ (get_prop_of _ _ _ _ Hpath)).
  unfold call_function, mbind, M_bind, read. by rewrite Hf.
Qed.

Lemma postprocessSync_identity st file messages config processor postprocess :
  prop_of st config "processor" = Some processor →
  prop_of st processor "postprocess" = Some postprocess →
  truthy postprocess = false →
  postprocessSync call file messages config st = (Returned messages, st).
Proof.
  intros Hconfig Hpost Hfalsy. unfold postprocessSync.
  rewrite (bind_returned _ _ _ _ _ (get_prop_of _ _ _ _ Hconfig)).
  rewrite (bind_returned _ _ _ _ _ (get_prop_of _ _ _ _ Hpost)).
  by rewrite Hfalsy.
Qed.

End Calls.

(** ** The properties of the service *)

(** C5: for a file whose [bom] flag is false, [getBodyWithBOM] returns
    the body of the file as it is, be it a text or a byte sequence, and
    leaves the store as it is. *)
Theorem getBodyWithBOM_identity (st : Store) (file body : Val) :
  prop_of st file "bom" = Some (VBool false) →
  prop_of st file "body" = Some body →
  getBodyWithBOM file st = (Returned body, st).
Proof. intros Hbom Hbody. by eapply getBodyWithBOM_falsy. Qed.

Lemma getBodyWithBOM_identity_witness :
  getBodyWithBOM Examples.file Examples.store
  = (Returned (VString (lit "# Title")), Examples.store).
Proof. apply getBodyWithBOM_identity; reflexivity. Defined.

(** C6: for a file whose [bom] flag is true, [getBodyWithBOM] returns a
    text body with the single character U+FEFF before it, so that taking
    the leading byte order mark away gives the body back; for a byte
    sequence of length [n] it returns a new byte sequence of length
    [3 + n] whose first three bytes are EF BB BF and whose other bytes
    are the body. *)
Theorem getBodyWithBOM_prepends (st : Store) (file body : Val) :
  prop_of st file "bom" = Some (VBool true) →
  prop_of st file "body" = Some body →
  (∀ s, body = VString s →
     getBodyWithBOM file st = (Returned (VString (BOM_CHAR :: s)), st)
     ∧ JsStr.strip_bom (BOM_CHAR :: s) = s)
  ∧ (∀ bytes, bytes_at st body = Some bytes →
       ∃ l st' result,
         getBodyWithBOM file st = (Returned (VRef l), st')
         ∧ st !! l = None
         ∧ bytes_at st' (VRef l) = Some result
         ∧ length result = 3 + length bytes
         ∧ take 3 result = [xef; xbb; xbf]
         ∧ drop 3 result = bytes).
Proof.
  intros Hbom Hbody. split.
  - intros s ->. split; [by eapply getBodyWithBOM_text|done].
  - intros bytes Hbytes.
    eexists _, _, ([xef; xbb; xbf] ++ bytes).
    split; [by eapply getBodyWithBOM_bytes|].
    split; [apply lookup_ge_None; lia|].
    split; [|done].
    unfold bytes_at. rewrite lookup_app_r by lia.
    by replace (S (length st) - length st) with 1 by lia.
Qed.

Lemma getBodyWithBOM_prepends_witness :
  (getBodyWithBOM (VRef 0) Examples.text_store
   = (Returned (VString (BOM_CHAR :: lit "# Title")), Examples.text_store)
   ∧ JsStr.strip_bom (BOM_CHAR :: lit "# Title") = lit "# Title")
  ∧ ∃ l st' result,
      getBodyWithBOM Examples.binary_file Examples.store
      = (Returned (VRef l), st')
      ∧ Examples.store !! l = None
      ∧ bytes_at st' (VRef l) = Some result
      ∧ length result = 3 + length [x23; x20; x54]
      ∧ take 3 result = [xef; xbb; xbf]
      ∧ drop 3 result = [x23; x20; x54].
Proof.
  split.
  - apply (getBodyWithBOM_prepends Examples.text_store (VRef 0)
             (VString (lit "# Title"))); reflexivity.
  - apply (getBodyWithBOM_prepends Examples.store Examples.binary_file
             (VRef 5)); reflexivity.
Defined.

(** C1, as stated, fails: the path of a derived file is the parent path
    joined with the name of the block by [path.join], which normalises
    its result.  For the file [/a/foo.md] and a block named
    [lib/../x.js] the derived file is at [/a/foo.md/x.js], not at
    [/a/foo.md/0_lib/../x.js]. *)
Lemma derived_path_is_normalised :
  ∃ result st2 derived,
    preprocessSync Examples.climbing_block Examples.derived_bom
      Examples.file Examples.config Examples.store = (Returned result, st2)
    ∧ result_files st2 result = Some [derived]
    ∧ prop_of st2 derived "path" = Some (VString (lit "/a/foo.md/x.js"))
    ∧ prop_of st2 derived "path"
      ≠ Some (VString (lit "/a/foo.md" ++ lit "/" ++ JsStr.of_index 0
                         ++ lit "_" ++ lit "lib/../x.js")).
Proof. by eexists _, _, _. Qed.

(** C1, amended: for every structured block [{text, filename}] at
    position [i] of what the processor returns, the derived file has the
    path [path.join(file.path, i + "_" + filename)], which is
    [file.path + "/" + i + "_" + filename] whenever the parent path and
    the name [i + "_" + filename] are made of plain segments (none empty,
    ["."] or [".."]); its [physicalPath] is that of the file and its body
    is the text of the block. *)
Theorem preprocessSync_derived_file
    (call : nat → Val → list Val → Store → (Val + Val) * Store)
    (derived_bom : Val → bool) (st st1 : Store)
    (file config processor blocks : Val) (items : list Val)
    (parentPath : JsString) (physicalPath : Val)
    (i : nat) (block : Val) (filename : JsString) (text : Val) :
  prop_of st config "processor" = Some processor →
  invoke_preprocess call file processor st = (Returned blocks, st1) →
  items_of st1 blocks = Some items →
  Forall (λ b, is_block st1 b = true) items →
  prop_of st1 file "path" = Some (VString parentPath) →
  prop_of st1 file "physicalPath" = Some physicalPath →
  items !! i = Some block →
  prop_of st1 block "filename" = Some (VString filename) →
  prop_of st1 block "text" = Some text →
  ∃ result st2 files derived,
    preprocessSync call derived_bom file config st = (Returned result, st2)
    ∧ result_files st2 result = Some files
    ∧ files !! i = Some derived
    ∧ prop_of st2 derived "path"
      = Some (VString (Path.join parentPath
                         (JsStr.of_index i ++ lit "_" ++ filename)))
    ∧ (Path.plain_path parentPath = true →
       Path.plain_segments (JsStr.of_index i ++ lit "_" ++ filename) = true →
       prop_of st2 derived "path"
       = Some (VString (parentPath ++ lit "/" ++ JsStr.of_index i
                          ++ lit "_" ++ filename)))
    ∧ prop_of st2 derived "physicalPath" = Some physicalPath
    ∧ prop_of st2 derived "body" = Some text.
Proof.
  intros Hconfig Hinvoke Hitems Hblocks Hpath Hphys Hi Hname Htext.
  destruct (preprocessSync_files call derived_bom _ _ _ _ _ _ _ _ _
              Hconfig Hinvoke Hitems Hpath Hphys Hblocks)
    as (result & st2 & files & Hrun & _ & _ & _ & Hfiles & _ & _ & Hderived).
  assert (Hblock : block_filename st1 block = Some filename)
    by (unfold block_filename; by rewrite Hname).
  destruct (Hderived i block filename Hi Hblock) as (l & Hl & Hcell).
  assert (block_text st1 block = text) as Hbody
    by (unfold block_text; by rewrite Htext).
  rewrite Hbody in Hcell.
  exists result, st2, files, (VRef l).
  unfold prop_of. rewrite Hcell. simpl.
  repeat split; try done.
  intros Hparent Hplain. by rewrite PathFacts.join_plain.
Qed.

Lemma preprocessSync_derived_file_witness :
  ∃ result st2 files derived,
    preprocessSync Examples.two_blocks Examples.derived_bom
      Examples.file Examples.config Examples.store = (Returned result, st2)
    ∧ result_files st2 result = Some files
    ∧ files !! 1 = Some derived
    ∧ prop_of st2 derived "path" = Some (VString (lit "/a/foo.md/1_y.js"))
    ∧ prop_of st2 derived "physicalPath" = Some (VString (lit "/a/foo.md"))
    ∧ prop_of st2 derived "body" = Some (VString (lit "b")).
Proof.
  destruct (preprocessSync_derived_file Examples.two_blocks
              Examples.derived_bom Examples.store
              (Examples.store
                 ++ [CObject [("text", VString (lit "a"));
                              ("filename", VString (lit "x.js"))];
                     CObject [("text", VString (lit "b"));
                              ("filename", VString (lit "y.js"))];
                     CArray [VRef 11; VRef 12]])
              Examples.file Examples.config (VRef 2) (VRef 13)
              [VRef 11; VRef 12] (lit "/a/foo.md") (VString (lit "/a/foo.md"))
              1 (VRef 12) (lit "y.js") (VString (lit "b")))
    as (result & st2 & files & derived & Hrun & Hfiles & Hderived & _ & Hpath
        & Hphys & Hbody);
    [reflexivity | reflexivity | reflexivity
    | repeat constructor | reflexivity | reflexivity | reflexivity
    | reflexivity | reflexivity |].
  exists result, st2, files, derived.
  repeat split; [exact Hrun | exact Hfiles | exact Hderived | | exact Hphys
                | exact Hbody].
  apply Hpath; reflexivity.
Defined.

(** The example of the specification: two structured blocks of
    [/a/foo.md] become the files [/a/foo.md/0_x.js] and
    [/a/foo.md/1_y.js], with the physical path of their parent. *)
Example two_blocks_of_foo :
  ∃ result st2 first second,
    preprocessSync Examples.two_blocks Examples.derived_bom
      Examples.file Examples.config Examples.store = (Returned result, st2)
    ∧ result_files st2 result = Some [first; second]
    ∧ prop_of st2 first "path" = Some (VString (lit "/a/foo.md/0_x.js"))
    ∧ prop_of st2 second "path" = Some (VString (lit "/a/foo.md/1_y.js"))
    ∧ prop_of st2 first "physicalPath" = Some (VString (lit "/a/foo.md"))
    ∧ prop_of st2 second "physicalPath" = Some (VString (lit "/a/foo.md")).
Proof. by eexists _, _, _, _. Qed.

(** C7: for every array of blocks that the processor returns,
    [preprocessSync] returns [{ok: true, files}] where [files] is as long
    as the array, the element at each position is derived from the block
    at that position, and every string block is itself, at its position;
    [["plain text"]] gives [{ok: true, files: ["plain text"]}]. *)
Theorem preprocessSync_keeps_order
    (call : nat → Val → list Val → Store → (Val + Val) * Store)
    (derived_bom : Val → bool) (st st1 : Store)
    (file config processor blocks : Val) (items : list Val)
    (parentPath : JsString) (physicalPath : Val) :
  prop_of st config "processor" = Some processor →
  invoke_preprocess call file processor st = (Returned blocks, st1) →
  items_of st1 blocks = Some items →
  Forall (λ b, is_block st1 b = true) items →
  prop_of st1 file "path" = Some (VString parentPath) →
  prop_of st1 file "physicalPath" = Some physicalPath →
  ∃ result st2 files,
    preprocessSync call derived_bom file config st = (Returned result, st2)
    ∧ prop_of st2 result "ok" = Some (VBool true)
    ∧ result_files st2 result = Some files
    ∧ length files = length items
    ∧ (∀ i s, items !! i = Some (VString s) → files !! i = Some (VString s))
    ∧ (∀ i block filename,
         items !! i = Some block →
         block_filename st1 block = Some filename →
         ∃ derived,
           files !! i = Some derived
           ∧ prop_of st2 derived "path"
             = Some (VString (Path.join parentPath
                                (JsStr.of_index i ++ lit "_" ++ filename)))
           ∧ prop_of st2 derived "body" = prop_of st1 block "text")
    ∧ (items = [VString (lit "plain text")] →
       files = [VString (lit "plain text")]).
Proof.
  intros Hconfig Hinvoke Hitems Hblocks Hpath Hphys.
  destruct (preprocessSync_files call derived_bom _ _ _ _ _ _ _ _ _
              Hconfig Hinvoke Hitems Hpath Hphys Hblocks)
    as (result & st2 & files & Hrun & _ & Hok & _ & Hfiles & Hlen & Hstr
        & Hderived).
  exists result, st2, files. repeat split; try done.
  - intros i block filename Hi Hname.
    destruct (Hderived i block filename Hi Hname) as (l & Hl & Hcell).
    exists (VRef l). unfold prop_of at 1 2. rewrite Hcell. simpl.
    repeat split; [done|].
    by destruct (block_filename_ref _ _ _ Hname) as (_ & -> & _).
  - intros ->. pose proof (Hstr 0 (lit "plain text") eq_refl) as Hfirst.
    destruct files as [|v [|]]; try done. by injection Hfirst as ->.
Qed.

Lemma preprocessSync_keeps_order_witness :
  ∃ result st2,
    preprocessSync Examples.plain_text Examples.derived_bom
      Examples.file Examples.config Examples.store = (Returned result, st2)
    ∧ prop_of st2 result "ok" = Some (VBool true)
    ∧ result_files st2 result = Some [VString (lit "plain text")].
Proof.
  destruct (preprocessSync_keeps_order Examples.plain_text
              Examples.derived_bom Examples.store
              (Examples.store ++ [CArray [VString (lit "plain text")]])
              Examples.file Examples.config (VRef 2) (VRef 11)
              [VString (lit "plain text")] (lit "/a/foo.md")
              (VString (lit "/a/foo.md")))
    as (result & st2 & files & Hrun & Hok & Hfiles & _ & _ & _ & Hplain);
    [reflexivity | reflexivity | reflexivity | repeat constructor
    | reflexivity | reflexivity |].
  exists result, st2. rewrite <- (Hplain eq_refl).
  repeat split; [exact Hrun | exact Hok | exact Hfiles].
Defined.

(** C2: when [processor.preprocess] throws an error, [preprocessSync]
    returns [{ok: false, errors: [record]}] with exactly one record,
    whose [ruleId] is [null], [fatal] is [true], [severity] is 2 and
    [nodeType] is [null], and whose [line] and [column] are the
    [lineNumber] and [column] of the error, [undefined] where the error
    has none; it produces no files. *)
Theorem preprocessSync_fatal_record
    (call : nat → Val → list Val → Store → (Val + Val) * Store)
    (derived_bom : Val → bool) (st st1 : Store)
    (file config processor ex : Val) (m : JsString) :
  prop_of st config "processor" = Some processor →
  invoke_preprocess call file processor st = (Thrown (Raised ex), st1) →
  prop_of st1 ex "message" = Some (VString m) →
  ∃ result st2 record,
    preprocessSync call derived_bom file config st = (Returned result, st2)
    ∧ prop_of st2 result "ok" = Some (VBool false)
    ∧ result_errors st2 result = Some [record]
    ∧ prop_of st2 record "ruleId" = Some VNull
    ∧ prop_of st2 record "fatal" = Some (VBool true)
    ∧ prop_of st2 record "severity" = Some (VNumber 2)
    ∧ prop_of st2 record "nodeType" = Some VNull
    ∧ prop_of st2 record "line" = prop_of st1 ex "lineNumber"
    ∧ prop_of st2 record "column" = prop_of st1 ex "column"
    ∧ (∀ e props,
         ex = VRef e → st1 !! e = Some (CObject props) →
         ("lineNumber" ∉ props.*1 →
          prop_of st2 record "line" = Some VUndefined)
         ∧ ("column" ∉ props.*1 →
            prop_of st2 record "column" = Some VUndefined))
    ∧ prop_of st2 result "files" = Some VUndefined
    ∧ st1 `prefix_of` st2
    ∧ length st2 = length st1 + 3.
Proof.
  intros Hconfig Hinvoke Hm.
  destruct (preprocessSync_caught_result call derived_bom _ _ _ _ _ _ _
              Hconfig Hinvoke Hm)
    as (result & st2 & record & line & column & Hrun & Hst2 & Hlen & Hline
        & Hcolumn & Hok & Hfiles & Herrors & Hrecord).
  exists result, st2, record. rewrite !Hrecord, Hline, Hcolumn.
  split; [done|]. do 8 (split; [done|]).
  split; [|split; [done|split; [|done]]].
  - intros e props -> He. unfold prop_of in Hline, Hcolumn.
    rewrite He in Hline, Hcolumn.
    injection Hline as <-. injection Hcolumn as <-. simpl.
    split; intros Habsent; by rewrite lookup_prop_absent.
  - rewrite Hst2. by apply prefix_app_r.
Qed.

Lemma preprocessSync_fatal_record_witness :
  ∃ result st2 record,
    preprocessSync Examples.bad_token Examples.derived_bom
      Examples.file Examples.config Examples.store = (Returned result, st2)
    ∧ prop_of st2 result "ok" = Some (VBool false)
    ∧ result_errors st2 result = Some [record]
    ∧ prop_of st2 record "ruleId" = Some VNull
    ∧ prop_of st2 record "fatal" = Some (VBool true)
    ∧ prop_of st2 record "severity" = Some (VNumber 2)
    ∧ prop_of st2 record "nodeType" = Some VNull
    ∧ prop_of st2 record "line" = Some (VNumber 4)
    ∧ prop_of st2 record "column" = Some VUndefined
    ∧ prop_of st2 result "files" = Some VUndefined.
Proof.
  destruct (preprocessSync_fatal_record Examples.bad_token
              Examples.derived_bom Examples.store
              (Examples.store
                 ++ [CObject [("message", VString (lit "line 4: bad token"));
                              ("lineNumber", VNumber 4)]])
              Examples.file Examples.config (VRef 2) (VRef 11)
              (lit "line 4: bad token"))
    as (result & st2 & record & Hrun & Hok & Herrors & Hrule & Hfatal
        & Hseverity & Hnode & Hline & Hcolumn & _ & Hfiles & _);
    [reflexivity | reflexivity | reflexivity |].
  exists result, st2, record.
  repeat split;
    [exact Hrun | exact Hok | exact Herrors | exact Hrule | exact Hfatal
    | exact Hseverity | exact Hnode | exact Hline | exact Hcolumn
    | exact Hfiles].
Defined.

(** C3: the message of the diagnostic is ["Preprocessing error: "]
    followed by the message of the error without a leading pattern
    [line <digits>:], in any case, and without the white space around
    what is left; the error message ["line 4: bad token"] gives
    ["Preprocessing error: bad token"]. *)
Theorem preprocessSync_failure_message
    (call : nat → Val → list Val → Store → (Val + Val) * Store)
    (derived_bom : Val → bool) (st st1 : Store)
    (file config processor ex : Val) (m : JsString) :
  prop_of st config "processor" = Some processor →
  invoke_preprocess call file processor st = (Thrown (Raised ex), st1) →
  prop_of st1 ex "message" = Some (VString m) →
  ∃ result st2 record stripped trimmed,
    preprocessSync call derived_bom file config st = (Returned result, st2)
    ∧ result_errors st2 result = Some [record]
    ∧ prop_of st2 record "message"
      = Some (VString (lit "Preprocessing error: " ++ trimmed))
    ∧ (∀ rest, JsStr.line_pattern m rest → stripped = rest)
    ∧ ((∀ rest, ¬ JsStr.line_pattern m rest) → stripped = m)
    ∧ (∃ pre post,
         stripped = pre ++ trimmed ++ post
         ∧ Forall (λ c, JsStr.is_white_space c = true) pre
         ∧ Forall (λ c, JsStr.is_white_space c = true) post
         ∧ (∀ c, head trimmed = Some c → JsStr.is_white_space c = false)
         ∧ (∀ c, last trimmed = Some c → JsStr.is_white_space c = false))
    ∧ (m = lit "line 4: bad token" →
       prop_of st2 record "message"
       = Some (VString (lit "Preprocessing error: bad token"))).
Proof.
  intros Hconfig Hinvoke Hm.
  destruct (preprocessSync_caught_result call derived_bom _ _ _ _ _ _ _
              Hconfig Hinvoke Hm)
    as (result & st2 & record & line & column & Hrun & _ & _ & _ & _ & _ & _
        & Herrors & Hrecord).
  exists result, st2, record, (JsStr.replace_line_prefix m),
    (JsStr.trim (JsStr.replace_line_prefix m)).
  rewrite Hrecord.
  destruct (JsStrFacts.replace_line_prefix_pattern m) as [Hstrip Hkeep].
  repeat split; try done.
  - apply JsStrFacts.trim_surrounding.
  - by intros ->.
Qed.

Lemma preprocessSync_failure_message_witness :
  ∃ result st2 record,
    preprocessSync Examples.bad_token Examples.derived_bom
      Examples.file Examples.config Examples.store = (Returned result, st2)
    ∧ result_errors st2 result = Some [record]
    ∧ prop_of st2 record "message"
      = Some (VString (lit "Preprocessing error: bad token")).
Proof.
  destruct (preprocessSync_failure_message Examples.bad_token
              Examples.derived_bom Examples.store
              (Examples.store
                 ++ [CObject [("message", VString (lit "line 4: bad token"));
                              ("lineNumber", VNumber 4)]])
              Examples.file Examples.config (VRef 2) (VRef 11)
              (lit "line 4: bad token"))
    as (result & st2 & record & stripped & trimmed & Hrun & Herrors & _ & _
        & _ & _ & Hmessage);
    [reflexivity | reflexivity | reflexivity |].
  exists result, st2, record.
  repeat split; [exact Hrun | exact Herrors | exact (Hmessage eq_refl)].
Defined.

(** C4: when [processor.preprocess] returns a value whose [then] is a
    function, [preprocessSync] throws an error and returns no result
    object; it builds no diagnostic. *)
Theorem preprocessSync_rejects_thenable
    (call : nat → Val → list Val → Store → (Val + Val) * Store)
    (derived_bom : Val → bool) (st st1 : Store)
    (file config processor blocks then_ : Val) :
  prop_of st config "processor" = Some processor →
  invoke_preprocess call file processor st = (Returned blocks, st1) →
  prop_of st1 blocks "then" = Some then_ →
  typeof st1 then_ = "function" →
  preprocessSync call derived_bom file config st
  = (Thrown (NewError (lit "Unsupported: Preprocessor returned a promise.")),
     st1).
Proof.
  intros Hconfig Hinvoke Hthen Hfun.
  rewrite (preprocessSync_returned _ _ _ _ _ _ _ _ Hconfig Hinvoke).
  by eapply after_preprocess_thenable.
Qed.

Lemma preprocessSync_rejects_thenable_witness :
  preprocessSync Examples.promise Examples.derived_bom
    Examples.file Examples.config Examples.store
  = (Thrown (NewError (lit "Unsupported: Preprocessor returned a promise.")),
     Examples.store ++ [CFunction 2; CObject [("then", VRef 11)]]).
Proof.
  apply (preprocessSync_rejects_thenable Examples.promise
           Examples.derived_bom Examples.store _ Examples.file
           Examples.config (VRef 2) (VRef 12) (VRef 11)); reflexivity.
Defined.

(** C10: the recovery of [preprocessSync] covers what the processor
    throws, not what it returns: when [processor.preprocess] returns
    [null] or [undefined], reading [then] from it raises a type error,
    and [preprocessSync] returns no result object and builds no
    diagnostic. *)
Theorem preprocessSync_nullish_blocks
    (call : nat → Val → list Val → Store → (Val + Val) * Store)
    (derived_bom : Val → bool) (st st1 : Store)
    (file config processor blocks : Val) :
  prop_of st config "processor" = Some processor →
  invoke_preprocess call file processor st = (Returned blocks, st1) →
  blocks = VNull ∨ blocks = VUndefined →
  preprocessSync call derived_bom file config st
  = (Thrown (Engine (ReadOfNullish "then")), st1).
Proof.
  intros Hconfig Hinvoke Hblocks.
  rewrite (preprocessSync_returned _ _ _ _ _ _ _ _ Hconfig Hinvoke).
  apply after_preprocess_nullish. tauto.
Qed.

Lemma preprocessSync_nullish_blocks_witness :
  preprocessSync Examples.null Examples.derived_bom
    Examples.file Examples.config Examples.store
  = (Thrown (Engine (ReadOfNullish "then")), Examples.store).
Proof.
  apply (preprocessSync_nullish_blocks Examples.null Examples.derived_bom
           Examples.store Examples.store Examples.file Examples.config
           (VRef 2) VNull); [reflexivity | reflexivity | by left].
Defined.

(** C8: when the processor has a [postprocess] function,
    [postprocessSync] returns what [processor.postprocess(messages,
    file.path)] returns, called with the messages and the path as they
    are; when the processor has none, it returns the messages as they
    are. *)
Theorem postprocessSync_delegates_or_returns
    (call : nat → Val → list Val → Store → (Val + Val) * Store)
    (st : Store) (file messages config processor postprocess : Val) :
  prop_of st config "processor" = Some processor →
  prop_of st processor "postprocess" = Some postprocess →
  (∀ f id path v st',
     postprocess = VRef f → st !! f = Some (CFunction id) →
     prop_of st file "path" = Some path →
     call id processor [messages; path] st = (inl v, st') →
     postprocessSync call file messages config st = (Returned v, st'))
  ∧ (truthy postprocess = false →
     postprocessSync call file messages config st = (Returned messages, st)).
Proof.
  intros Hconfig Hpost. split.
  - intros f id path v st' -> Hf Hpath Hcall.
    rewrite (postprocessSync_delegates _ _ _ _ _ _ _ _ _ Hconfig Hpost Hf Hpath).
    by rewrite Hcall.
  - intros Hfalsy. by eapply postprocessSync_identity.
Qed.

Lemma postprocessSync_delegates_or_returns_witness :
  postprocessSync Examples.two_blocks Examples.file Examples.messages
    Examples.config Examples.store
  = (Returned (VRef 11), Examples.store ++ [CArray []])
  ∧ postprocessSync Examples.two_blocks Examples.file Examples.messages
      Examples.config_without_postprocess Examples.store
    = (Returned Examples.messages, Examples.store).
Proof.
  split.
  - apply (postprocessSync_delegates_or_returns Examples.two_blocks
             Examples.store Examples.file Examples.messages Examples.config
             (VRef 2) (VRef 1) eq_refl eq_refl)
      with (f := 1) (id := 1) (path := VString (lit "/a/foo.md"));
      reflexivity.
  - apply (postprocessSync_delegates_or_returns Examples.two_blocks
             Examples.store Examples.file Examples.messages
             Examples.config_without_postprocess (VRef 7) VUndefined
             eq_refl eq_refl).
    reflexivity.
Defined.

(** C9: [getBodyWithBOM], [preprocessSync] and [postprocessSync] write to
    no cell that was in the store when they were called: whatever they
    return or throw, the store has only grown, but for what the function
    of the processor that they call does to it.  With a processor that
    writes to no cell either, every cell of the store (the file, its
    body, the messages, the configuration) is after the call what it was
    before.  For a byte sequence and a true [bom] flag the body with the
    byte order mark is a new cell, and the body of the file is what it
    was. *)
Theorem service_leaves_inputs
    (call : nat → Val → list Val → Store → (Val + Val) * Store)
    (derived_bom : Val → bool) :
  (∀ file, only_allocates (getBodyWithBOM file))
  ∧ (∀ file config,
       allocates_around_call call
         (preprocessSync call derived_bom file config))
  ∧ (∀ file messages config,
       allocates_around_call call
         (postprocessSync call file messages config))
  ∧ (call_only_allocates call →
     ∀ file messages config st l cell,
       st !! l = Some cell →
       (getBodyWithBOM file st).2 !! l = Some cell
       ∧ (preprocessSync call derived_bom file config st).2 !! l = Some cell
       ∧ (postprocessSync call file messages config st).2 !! l = Some cell)
  ∧ (∀ st file body bytes,
       prop_of st file "bom" = Some (VBool true) →
       prop_of st file "body" = Some body →
       bytes_at st body = Some bytes →
       ∃ l st',
         getBodyWithBOM file st = (Returned (VRef l), st')
         ∧ st !! l = None
         ∧ VRef l ≠ body
         ∧ bytes_at st' body = Some bytes
         ∧ bytes_at st' (VRef l) = Some ([xef; xbb; xbf] ++ bytes)).
Proof.
  split; [apply only_allocates_getBodyWithBOM|].
  split; [apply around_call_preprocessSync|].
  split; [apply around_call_postprocessSync|].
  split.
  - intros Hcall file messages config st l cell Hl.
    repeat split; eapply prefix_lookup_Some; try exact Hl.
    + apply only_allocates_getBodyWithBOM.
    + by apply (around_call_pure call), around_call_preprocessSync.
    + by apply (around_call_pure call), around_call_postprocessSync.
  - intros st file body bytes Hbom Hbody Hbytes.
    eexists _, _. split; [by eapply getBodyWithBOM_bytes|].
    assert (Hfresh : st !! S (length st) = None)
      by (apply lookup_ge_None; lia).
    repeat split; [done| |by apply bytes_at_app|].
    + intros <-. simpl in Hbytes. by rewrite Hfresh in Hbytes.
    + unfold bytes_at. rewrite lookup_app_r by lia.
      by replace (S (length st) - length st) with 1 by lia.
Qed.

Lemma service_leaves_inputs_witness :
  ((preprocessSync Examples.two_blocks Examples.derived_bom Examples.file
      Examples.config Examples.store).2 !! 4
   = Examples.store !! 4
   ∧ (postprocessSync Examples.two_blocks Examples.file Examples.messages
        Examples.config Examples.store).2 !! 9
     = Examples.store !! 9)
  ∧ ∃ l st',
      getBodyWithBOM Examples.binary_file Examples.store
      = (Returned (VRef l), st')
      ∧ Examples.store !! l = None
      ∧ VRef l ≠ VRef 5
      ∧ bytes_at st' (VRef 5) = Some [x23; x20; x54]
      ∧ bytes_at st' (VRef l) = Some ([xef; xbb; xbf] ++ [x23; x20; x54]).
Proof.
  destruct (service_leaves_inputs Examples.two_blocks Examples.derived_bom)
    as (_ & _ & _ & Hkept & Hfresh).
  assert (Hcall : call_only_allocates Examples.two_blocks).
  { intros f this args st. unfold Examples.two_blocks.
    destruct f; apply prefix_app_r; reflexivity. }
  split.
  - split.
    + apply (Hkept Hcall Examples.file Examples.messages Examples.config
               Examples.store 4). reflexivity.
    + apply (Hkept Hcall Examples.file Examples.messages Examples.config
               Examples.store 9). reflexivity.
  - apply (Hfresh Examples.store Examples.binary_file (VRef 5)); reflexivity.
Defined.

(** ** Further properties of the service *)

(** X1: the processor is called as a method of itself on the body of
    the file, with U+FEFF before it when the [bom] flag of the file is
    true and as it is otherwise, and on the path of the file; what the
    call returns or throws is what the [try] block ends with. *)
Theorem preprocess_receives_restored_body
    (call : nat → Val → list Val → Store → (Val + Val) * Store)
    (st : Store) (file processor path : Val) (f id : nat) (bom : bool)
    (s : JsString) :
  prop_of st processor "preprocess" = Some (VRef f) →
  st !! f = Some (CFunction id) →
  prop_of st file "bom" = Some (VBool bom) →
  prop_of st file "body" = Some (VString s) →
  prop_of st file "path" = Some path →
  invoke_preprocess call file processor st =
    match call id processor
            [VString (if bom then BOM_CHAR :: s else s); path] st with
    | (inl blocks, st1) => (Returned blocks, st1)
    | (inr ex, st1) => (Thrown (Raised ex), st1)
    end.
Proof.
  intros Hpre Hf Hbom Hbody Hpath.
  apply invoke_preprocess_call with (f := f); try done.
  destruct bom.
  - by eapply getBodyWithBOM_text.
  - by eapply getBodyWithBOM_falsy.
Qed.

Lemma preprocess_receives_restored_body_witness :
  invoke_preprocess Examples.two_blocks MoreExamples.bom_file (VRef 2)
    MoreExamples.store
  = match Examples.two_blocks 0 (VRef 2)
            [VString (BOM_CHAR :: lit "# Title");
             VString (lit "/a/baz.md")] MoreExamples.store with
    | (inl blocks, st1) => (Returned blocks, st1)
    | (inr ex, st1) => (Thrown (Raised ex), st1)
    end.
Proof.
  apply (preprocess_receives_restored_body Examples.two_blocks
           MoreExamples.store MoreExamples.bom_file (VRef 2)
           (VString (lit "/a/baz.md")) 0 0 true (lit "# Title"));
    reflexivity.
Defined.

(** X2: a thrown value that is [undefined] or [null], or that has no
    [message], is not turned into a diagnostic: the handler of
    [preprocessSync] raises a type error on it, and [preprocessSync]
    returns no result object. *)
Theorem preprocessSync_thrown_without_message
    (call : nat → Val → list Val → Store → (Val + Val) * Store)
    (derived_bom : Val → bool) (st st1 : Store)
    (file config processor ex : Val) :
  prop_of st config "processor" = Some processor →
  invoke_preprocess call file processor st = (Thrown (Raised ex), st1) →
  (ex = VUndefined ∨ ex = VNull →
   preprocessSync call derived_bom file config st
   = (Thrown (Engine (ReadOfNullish "message")), st1))
  ∧ ((∃ s, ex = VString s) ∨ prop_of st1 ex "message" = Some VUndefined →
     preprocessSync call derived_bom file config st
     = (Thrown (Engine (ReadOfNullish "replace")), st1)).
Proof.
  intros Hconfig Hinvoke.
  rewrite (preprocessSync_raised _ _ _ _ _ _ _ _ Hconfig Hinvoke).
  split.
  - by intros [-> | ->].
  - intros [[s ->] | Hm]; [done|].
    by apply preprocess_failure_without_message.
Qed.

Lemma preprocessSync_thrown_without_message_witness :
  preprocessSync MoreExamples.throws_null Examples.derived_bom
    Examples.file Examples.config Examples.store
  = (Thrown (Engine (ReadOfNullish "message")), Examples.store).
Proof.
  apply (preprocessSync_thrown_without_message MoreExamples.throws_null
           Examples.derived_bom Examples.store Examples.store Examples.file
           Examples.config (VRef 2) VNull eq_refl eq_refl).
  right. reflexivity.
Defined.

(** X3: [postprocessSync] does not catch what [processor.postprocess]
    throws: the thrown value leaves [postprocessSync] as it is, with the
    store that the processor left. *)
Theorem postprocessSync_propagates_throw
    (call : nat → Val → list Val → Store → (Val + Val) * Store)
    (st st' : Store) (file messages config processor path ex : Val)
    (f id : nat) :
  prop_of st config "processor" = Some processor →
  prop_of st processor "postprocess" = Some (VRef f) →
  st !! f = Some (CFunction id) →
  prop_of st file "path" = Some path →
  call id processor [messages; path] st = (inr ex, st') →
  postprocessSync call file messages config st = (Thrown (Raised ex), st').
Proof.
  intros Hconfig Hpost Hf Hpath Hcall.
  rewrite (postprocessSync_delegates _ _ _ _ _ _ _ _ _ Hconfig Hpost Hf Hpath).
  by rewrite Hcall.
Qed.

Lemma postprocessSync_propagates_throw_witness :
  postprocessSync MoreExamples.throws_null Examples.file Examples.messages
    Examples.config Examples.store
  = (Thrown (Raised VNull), Examples.store).
Proof.
  apply (postprocessSync_propagates_throw MoreExamples.throws_null
           Examples.store Examples.store Examples.file Examples.messages
           Examples.config (VRef 2) (VString (lit "/a/foo.md")) VNull 1 1);
    reflexivity.
Defined.

(** X4: a [postprocess] that is truthy and not a function is called all
    the same: [postprocessSync] raises a type error and does not return
    the messages. *)
Theorem postprocessSync_not_callable
    (call : nat → Val → list Val → Store → (Val + Val) * Store)
    (st : Store) (file messages config processor postprocess path : Val) :
  prop_of st config "processor" = Some processor →
  prop_of st processor "postprocess" = Some postprocess →
  truthy postprocess = true →
  typeof st postprocess ≠ "function" →
  (∀ l, postprocess = VRef l → is_Some (st !! l)) →
  prop_of st file "path" = Some path →
  postprocessSync call file messages config st
  = (Thrown (Engine (NotCallable "postprocess")), st).
Proof.
  intros Hconfig Hpost Htruthy Hfun Hstore Hpath. unfold postprocessSync.
  rewrite (bind_returned _ _ _ _ _ (get_prop_of _ _ _ _ Hconfig)).
  rewrite (bind_returned _ _ _ _ _ (get_prop_of _ _ _ _ Hpost)).
  rewrite Htruthy.
  rewrite (bind_returned _ _ _ _ _ (get_prop_of _ _ _ _ Hpost)).
  rewrite (bind_returned _ _ _ _ _ (get_prop_of _ _ _ _ Hpath)).
  destruct postprocess as [| | | | |l]; try done.
  unfold call_function, mbind, M_bind, read. simpl in Hfun.
  destruct (Hstore l eq_refl) as [c Hc]. rewrite Hc in *.
  by destruct c.
Qed.

Lemma postprocessSync_not_callable_witness :
  postprocessSync Examples.two_blocks Examples.file Examples.messages
    MoreExamples.config_with_bad_postprocess MoreExamples.store
  = (Thrown (Engine (NotCallable "postprocess")), MoreExamples.store).
Proof.
  apply (postprocessSync_not_callable Examples.two_blocks MoreExamples.store
           Examples.file Examples.messages
           MoreExamples.config_with_bad_postprocess (VRef 12)
           (VString (lit "yes")) (VString (lit "/a/foo.md")));
    [reflexivity | reflexivity | reflexivity | discriminate
    | discriminate | reflexivity].
Defined.

(** The index that begins the name of a derived file. *)

Module IndexFacts.

Import JsStr.

Lemma lit_inj s t : lit s = lit t → s = t.
Proof.
  unfold lit. intros H.
  rewrite <- (String.string_of_list_ascii_of_string s),
    <- (String.string_of_list_ascii_of_string t).
  f_equal. revert H.
  generalize (String.list_ascii_of_string s) (String.list_ascii_of_string t).
  induction l as [|a l IH]; intros [|b l']; try done.
  intros [= Hab Hl]. f_equal; [|by apply IH].
  by rewrite <- (Ascii.ascii_N_embedding a), <- (Ascii.ascii_N_embedding b), Hab.
Qed.

Lemma of_index_inj i j : of_index i = of_index j → i = j.
Proof.
  unfold of_index. intros H%lit_inj.
  assert (Nat.to_uint i = Nat.to_uint j) as Huint.
  { apply (f_equal NilEmpty.uint_of_string) in H.
    rewrite !NilEmpty.usu in H. by injection H. }
  by rewrite <- (DecimalNat.Unsigned.of_to i), <- (DecimalNat.Unsigned.of_to j),
    Huint.
Qed.

Lemma string_of_uint_digits d :
  Forall (λ c, is_digit c = true) (lit (NilEmpty.string_of_uint d)).
Proof. induction d; simpl; by constructor. Qed.

Lemma of_index_digits i : Forall (λ c, is_digit c = true) (of_index i).
Proof. apply string_of_uint_digits. Qed.

(** Digits before an underscore are read back in one way only. *)
Lemma digits_before_underscore d1 d2 r1 r2 :
  Forall (λ c, is_digit c = true) d1 →
  Forall (λ c, is_digit c = true) d2 →
  d1 ++ lit "_" ++ r1 = d2 ++ lit "_" ++ r2 →
  d1 = d2 ∧ r1 = r2.
Proof.
  intros H1. revert d2.
  induction H1 as [|c d1 Hc _ IH]; intros d2 H2 Heq.
  - destruct H2 as [|c' d2 Hc' _]; simpl in *; [by simplify_eq|].
    injection Heq as <- _. done.
  - destruct H2 as [|c' d2 Hc' H2]; simpl in *.
    + injection Heq as -> _. done.
    + injection Heq as -> Heq. destruct (IH d2 H2 Heq) as [-> ->]. done.
Qed.

(** The names of two blocks at different positions differ, whatever
    the blocks are called. *)
Lemma index_name_inj i j f1 f2 :
  of_index i ++ lit "_" ++ f1 = of_index j ++ lit "_" ++ f2 → i = j ∧ f1 = f2.
Proof.
  intros [Hi Hf]%digits_before_underscore; try apply of_index_digits.
  split; [by apply of_index_inj|done].
Qed.

End IndexFacts.

(** X5: two structured blocks at different positions get different
    paths, whatever their names, as long as the parent path and the two
    names [i + "_" + filename] are made of plain segments, which
    [path.join] leaves as they are. *)
Theorem derived_paths_distinct
    (call : nat → Val → list Val → Store → (Val + Val) * Store)
    (derived_bom : Val → bool) (st st1 : Store)
    (file config processor blocks : Val) (items : list Val)
    (parentPath : JsString) (physicalPath : Val)
    (i j : nat) (block1 block2 : Val) (name1 name2 : JsString) :
  prop_of st config "processor" = Some processor →
  invoke_preprocess call file processor st = (Returned blocks, st1) →
  items_of st1 blocks = Some items →
  Forall (λ b, is_block st1 b = true) items →
  prop_of st1 file "path" = Some (VString parentPath) →
  prop_of st1 file "physicalPath" = Some physicalPath →
  items !! i = Some block1 →
  items !! j = Some block2 →
  block_filename st1 block1 = Some name1 →
  block_filename st1 block2 = Some name2 →
  Path.plain_path parentPath = true →
  Path.plain_segments (JsStr.of_index i ++ lit "_" ++ name1) = true →
  Path.plain_segments (JsStr.of_index j ++ lit "_" ++ name2) = true →
  i ≠ j →
  ∃ result st2 files derived1 derived2 path1 path2,
    preprocessSync call derived_bom file config st = (Returned result, st2)
    ∧ result_files st2 result = Some files
    ∧ files !! i = Some derived1
    ∧ files !! j = Some derived2
    ∧ prop_of st2 derived1 "path" = Some (VString path1)
    ∧ prop_of st2 derived2 "path" = Some (VString path2)
    ∧ path1 ≠ path2.
Proof.
  intros Hconfig Hinvoke Hitems Hblocks Hpath Hphys Hi Hj Hname1 Hname2
    Hparent Hplain1 Hplain2 Hij.
  destruct (preprocessSync_files call derived_bom _ _ _ _ _ _ _ _ _
              Hconfig Hinvoke Hitems Hpath Hphys Hblocks)
    as (result & st2 & files & Hrun & _ & _ & _ & Hfiles & _ & _ & Hderived).
  destruct (Hderived i block1 name1 Hi Hname1) as (l1 & Hl1 & Hcell1).
  destruct (Hderived j block2 name2 Hj Hname2) as (l2 & Hl2 & Hcell2).
  eexists result, st2, files, (VRef l1), (VRef l2), _, _.
  unfold prop_of. rewrite Hcell1, Hcell2. simpl.
  repeat split; try done.
  rewrite !PathFacts.join_plain by done.
  intros Heq%app_inv_head. injection Heq as Heq.
  by apply IndexFacts.index_name_inj in Heq as [? _].
Qed.

Lemma derived_paths_distinct_witness :
  ∃ result st2 files derived1 derived2 path1 path2,
    preprocessSync Examples.two_blocks Examples.derived_bom
      Examples.file Examples.config Examples.store = (Returned result, st2)
    ∧ result_files st2 result = Some files
    ∧ files !! 0 = Some derived1
    ∧ files !! 1 = Some derived2
    ∧ prop_of st2 derived1 "path" = Some (VString path1)
    ∧ prop_of st2 derived2 "path" = Some (VString path2)
    ∧ path1 ≠ path2.
Proof.
  apply (derived_paths_distinct Examples.two_blocks Examples.derived_bom
           Examples.store
           (Examples.store
              ++ [CObject [("text", VString (lit "a"));
                           ("filename", VString (lit "x.js"))];
                  CObject [("text", VString (lit "b"));
                           ("filename", VString (lit "y.js"))];
                  CArray [VRef 11; VRef 12]])
           Examples.file Examples.config (VRef 2) (VRef 13)
           [VRef 11; VRef 12] (lit "/a/foo.md") (VString (lit "/a/foo.md"))
           0 1 (VRef 11) (VRef 12) (lit "x.js") (lit "y.js"));
    first [reflexivity | lia | by repeat constructor].
Defined.

(** Without plain segments the paths of two blocks can be one: the
    blocks [a/../x.js] and [b/../x.js] of [/a/foo.md] both become the
    file [/a/foo.md/x.js]. *)
Example colliding_paths :
  ∃ result st2 first second,
    preprocessSync MoreExamples.colliding_blocks Examples.derived_bom
      Examples.file Examples.config Examples.store = (Returned result, st2)
    ∧ result_files st2 result = Some [first; second]
    ∧ first ≠ second
    ∧ prop_of st2 first "path" = Some (VString (lit "/a/foo.md/x.js"))
    ∧ prop_of st2 second "path" = Some (VString (lit "/a/foo.md/x.js")).
Proof. by eexists _, _, _, _. Qed.

Lemma derived_files_fresh derived_bom st parentPath physicalPath items i next
    k l :
  (derived_files derived_bom st parentPath physicalPath items i next).1 !! k
  = Some (VRef l) →
  next ≤ l.
Proof.
  revert i next k.
  induction items as [|block items IH]; intros i next k; [done|].
  destruct (decide (∃ s, block = VString s)) as [[s ->]|Hnot].
  - rewrite derived_files_string. destruct k; simpl; [done|]. apply IH.
  - rewrite derived_files_structured by (intros s ->; apply Hnot; eauto).
    destruct k; simpl.
    + intros [= ->]. lia.
    + intros Hk%IH. lia.
Qed.

(** X10: [preprocessSync] hands back nothing of what the processor
    returned but its string blocks: the result object, the array of
    files and every file in it are cells that were not in the store when
    the processor returned, and the array of the processor still holds
    the blocks it held. *)
Theorem preprocessSync_returns_new_objects
    (call : nat → Val → list Val → Store → (Val + Val) * Store)
    (derived_bom : Val → bool) (st st1 : Store)
    (file config processor blocks : Val) (items : list Val)
    (parentPath : JsString) (physicalPath : Val) :
  prop_of st config "processor" = Some processor →
  invoke_preprocess call file processor st = (Returned blocks, st1) →
  items_of st1 blocks = Some items →
  Forall (λ b, is_block st1 b = true) items →
  prop_of st1 file "path" = Some (VString parentPath) →
  prop_of st1 file "physicalPath" = Some physicalPath →
  ∃ result array st2 files,
    preprocessSync call derived_bom file config st
    = (Returned (VRef result), st2)
    ∧ st1 !! result = None
    ∧ prop_of st2 (VRef result) "files" = Some (VRef array)
    ∧ st1 !! array = None
    ∧ items_of st2 (VRef array) = Some files
    ∧ (∀ k l, files !! k = Some (VRef l) → st1 !! l = None)
    ∧ items_of st2 blocks = Some items.
Proof.
  intros Hconfig Hinvoke Hitems Hblocks Hpath Hphys.
  pose proof (after_preprocess_blocks derived_bom _ _ _ _ _ _
                Hitems Hpath Hphys Hblocks) as Hafter.
  rewrite <- (preprocessSync_returned call _ _ _ _ _ _ _ Hconfig Hinvoke)
    in Hafter.
  set (files := derived_files derived_bom st1 parentPath physicalPath items 0
                  (length st1)) in *.
  simpl in Hafter.
  eexists _, (length st1 + length files.2), _, files.1.
  split; [exact Hafter|].
  split; [apply lookup_ge_None; lia|].
  assert (Hresult : ∀ c d, (st1 ++ files.2 ++ [c; d])
                           !! S (length st1 + length files.2) = Some d).
  { intros c d. rewrite (assoc_L (++)), lookup_app_r; rewrite length_app; [|lia].
    by replace (S (length st1 + length files.2)
                - (length st1 + length files.2)) with 1 by lia. }
  assert (Harray : ∀ c d, (st1 ++ files.2 ++ [c; d])
                          !! (length st1 + length files.2) = Some c).
  { intros c d. rewrite (assoc_L (++)), lookup_app_r; rewrite length_app; [|lia].
    by rewrite Nat.sub_diag. }
  unfold prop_of, items_of at 1. rewrite Hresult, Harray. simpl.
  repeat split; [apply lookup_ge_None; lia| |].
  - intros k l Hk%derived_files_fresh. apply lookup_ge_None. lia.
  - destruct blocks as [| | | | |b]; try done. simpl in *.
    destruct (st1 !! b) as [c|] eqn:Eb; [|done].
    by rewrite (lookup_app_l_Some _ _ _ _ Eb).
Qed.

Lemma preprocessSync_returns_new_objects_witness :
  ∃ result array st2 files,
    preprocessSync Examples.two_blocks Examples.derived_bom
      Examples.file Examples.config Examples.store
    = (Returned (VRef result), st2)
    ∧ 14 ≤ result
    ∧ prop_of st2 (VRef result) "files" = Some (VRef array)
    ∧ 14 ≤ array
    ∧ items_of st2 (VRef array) = Some files
    ∧ (∀ k l, files !! k = Some (VRef l) → 14 ≤ l)
    ∧ items_of st2 (VRef 13) = Some [VRef 11; VRef 12].
Proof.
  destruct (preprocessSync_returns_new_objects Examples.two_blocks
              Examples.derived_bom Examples.store
              (Examples.store
                 ++ [CObject [("text", VString (lit "a"));
                              ("filename", VString (lit "x.js"))];
                     CObject [("text", VString (lit "b"));
                              ("filename", VString (lit "y.js"))];
                     CArray [VRef 11; VRef 12]])
              Examples.file Examples.config (VRef 2) (VRef 13)
              [VRef 11; VRef 12] (lit "/a/foo.md")
              (VString (lit "/a/foo.md")))
    as (result & array & st2 & files & Hrun & Hresult & Hfiles & Harray
        & Hitems & Hfresh & Hblocks);
    [reflexivity | reflexivity | reflexivity | repeat constructor
    | reflexivity | reflexivity |].
  exists result, array, st2, files.
  repeat split;
    [exact Hrun | exact (proj1 (lookup_ge_None _ _) Hresult) | exact Hfiles
    | exact (proj1 (lookup_ge_None _ _) Harray) | exact Hitems
    | | exact Hblocks].
  intros k l Hk. exact (proj1 (lookup_ge_None _ _) (Hfresh k l Hk)).
Defined.

(** What a returned result tells about the run. *)

Lemma bind_returned_inv {A B} (m : M A) (f : A → M B) st b st' :
  (m ≫= f) st = (Returned b, st') →
  ∃ a st1, m st = (Returned a, st1) ∧ f a st1 = (Returned b, st').
Proof.
  unfold mbind, M_bind. destruct (m st) as [[a|e|] st1]; try done. by eauto.
Qed.










Lemma map_items_throws callback before block after i st vs st1 e st2 :
  map_items callback before i st = (Returned vs, st1) →
  callback block (i + length before) st1 = (Thrown e, st2) →
  map_items callback (before ++ block :: after) i st = (Thrown e, st2).
Proof.
  revert i st vs.
  induction before as [|b before IH]; intros i st vs Hbefore Hblock; simpl in *.
  - injection Hbefore as <- <-. rewrite Nat.add_0_r in Hblock.
    by rewrite (bind_thrown _ _ _ _ _ Hblock).
  - apply bind_returned_inv in Hbefore as (v & st0 & Hv & Hbefore).
    apply bind_returned_inv in Hbefore as (vs' & st0' & Hvs & [= <- <-]).
    rewrite (bind_returned _ _ _ _ _ Hv).
    rewrite (bind_thrown _ _ _ _ _ (IH (S i) st0 vs' Hvs
                                      ltac:(by rewrite Nat.add_succ_comm))).
    done.
Qed.

(** X7: a block that is [null] or [undefined] makes [preprocessSync]
    raise a type error where it reads the [filename] of the block, after
    the blocks before it have been turned into files: no result object is
    returned, not even for those. *)
Theorem preprocessSync_nullish_block
    (call : nat → Val → list Val → Store → (Val + Val) * Store)
    (derived_bom : Val → bool) (st st1 : Store)
    (file config processor blocks : Val) (items : list Val)
    (parentPath : JsString) (physicalPath : Val) (j : nat) (block : Val) :
  prop_of st config "processor" = Some processor →
  invoke_preprocess call file processor st = (Returned blocks, st1) →
  items_of st1 blocks = Some items →
  prop_of st1 file "path" = Some (VString parentPath) →
  prop_of st1 file "physicalPath" = Some physicalPath →
  items !! j = Some block →
  block = VNull ∨ block = VUndefined →
  Forall (λ b, is_block st1 b = true) (take j items) →
  ∃ st2,
    preprocessSync call derived_bom file config st
    = (Thrown (Engine (ReadOfNullish "filename")), st2)
    ∧ st1 `prefix_of` st2.
Proof.
  intros Hconfig Hinvoke Hitems Hpath Hphys Hj Hnull Hbefore.
  rewrite (preprocessSync_returned _ _ _ _ _ _ _ _ Hconfig Hinvoke).
  pose proof (map_items_blocks derived_bom st1 parentPath physicalPath file
                (take j items) Hpath Hphys Hbefore 0 []) as Hrun.
  simpl in Hrun. rewrite app_nil_r in Hrun.
  set (files := derived_files derived_bom st1 parentPath physicalPath
                  (take j items) 0 (length st1)) in *.
  exists (st1 ++ files.2). split; [|by apply prefix_app_r].
  assert (Hblock : ∀ i, derive_block derived_bom file block i (st1 ++ files.2)
                        = (Thrown (Engine (ReadOfNullish "filename")),
                           st1 ++ files.2)).
  { intros i. unfold derive_block.
    rewrite (bind_returned _ _ _ _ _ (eq_refl : get_store _ = _)).
    assert (String.eqb (typeof (st1 ++ files.2) block) "string" = false) as ->
      by by destruct Hnull as [-> | ->].
    rewrite (bind_returned _ _ _ _ _
               (get_prop_of _ _ _ _ (prop_of_app _ files.2 _ _ _ Hpath))).
    by destruct Hnull as [-> | ->]. }
  pose proof (map_items_throws _ _ _ (drop (S j) items) _ _ _ _ _ _
                Hrun (Hblock _)) as Hmap.
  rewrite (take_drop_middle _ _ _ Hj) in Hmap.
  destruct blocks as [| | | | |a]; try done. simpl in Hitems.
  destruct (st1 !! a) as [[]|] eqn:Ea; try done. injection Hitems as ->.
  unfold after_preprocess.
  assert (Hthen : get_prop (VRef a) "then" st1 = (Returned VUndefined, st1)).
  { unfold get_prop, mbind, M_bind, read. by rewrite Ea. }
  rewrite (bind_returned _ _ _ _ _ Hthen).
  rewrite (bind_returned _ _ _ _ _ (eq_refl : get_store st1 = _)).
  change (String.eqb (typeof st1 VUndefined) "function") with false.
  cbv iota.
  assert (Harray : array_map (VRef a) (derive_block derived_bom file) st1
                   = (Thrown (Engine (ReadOfNullish "filename")),
                      st1 ++ files.2)).
  { unfold array_map.
    rewrite (bind_returned _ _ _ _ _ (eq_refl : get_store st1 = _)).
    assert (Hread : read a st1 = (Returned (CArray items), st1))
      by (unfold read; by rewrite Ea).
    rewrite (bind_returned _ _ _ _ _ Hread).
    by rewrite (bind_thrown _ _ _ _ _ Hmap). }
  by rewrite (bind_thrown _ _ _ _ _ Harray).
Qed.

Lemma preprocessSync_nullish_block_witness :
  ∃ st2,
    preprocessSync MoreExamples.block_and_null Examples.derived_bom
      Examples.file Examples.config Examples.store
    = (Thrown (Engine (ReadOfNullish "filename")), st2)
    ∧ (Examples.store
         ++ [CObject [("text", VString (lit "a"));
                      ("filename", VString (lit "x.js"))];
             CArray [VRef 11; VNull]]) `prefix_of` st2.
Proof.
  apply (preprocessSync_nullish_block MoreExamples.block_and_null
           Examples.derived_bom Examples.store _ Examples.file
           Examples.config (VRef 2) (VRef 12) [VRef 11; VNull]
           (lit "/a/foo.md") (VString (lit "/a/foo.md")) 1 VNull);
    first [reflexivity | by left | by repeat constructor].
Defined.

(** X8: a block object without a [filename] is not refused: the
    callback of [preprocessSync] names its file [i + "_undefined"], from
    the text that the template gives [undefined], and builds the file as
    for any other block. *)
Theorem derive_block_without_filename
    (derived_bom : Val → bool) (st : Store) (file block : Val) (i : nat)
    (parentPath : JsString) (physicalPath text : Val) :
  prop_of st file "path" = Some (VString parentPath) →
  prop_of st file "physicalPath" = Some physicalPath →
  prop_of st block "filename" = Some VUndefined →
  prop_of st block "text" = Some text →
  derive_block derived_bom file block i st =
    (Returned (VRef (length st)),
     st ++ [derived_file derived_bom parentPath physicalPath i
              (lit "undefined") text]).
Proof.
  intros Hpath Hphys Hname Htext. unfold derive_block.
  rewrite (bind_returned _ _ _ _ _ (eq_refl : get_store st = _)).
  assert (String.eqb (typeof st block) "string" = false) as ->.
  { apply String.eqb_neq. by intros [s ->]%typeof_string. }
  rewrite (bind_returned _ _ _ _ _ (get_prop_of _ _ _ _ Hpath)).
  rewrite (bind_returned _ _ _ _ _ (get_prop_of _ _ _ _ Hname)).
  rewrite (bind_returned _ _ _ _ _ (eq_refl : to_string VUndefined st = _)).
  rewrite (bind_returned _ _ _ _ _
             (eq_refl : path_join (VString parentPath) _ st = _)).
  rewrite (bind_returned _ _ _ _ _ (get_prop_of _ _ _ _ Htext)).
  by rewrite (bind_returned _ _ _ _ _ (get_prop_of _ _ _ _ Hphys)).
Qed.

Lemma derive_block_without_filename_witness :
  ∃ st',
    derive_block Examples.derived_bom Examples.file
      MoreExamples.nameless_block 3 MoreExamples.store
    = (Returned (VRef 15), st')
    ∧ prop_of st' (VRef 15) "path"
      = Some (VString (lit "/a/foo.md/3_undefined"))
    ∧ prop_of st' (VRef 15) "body" = Some (VString (lit "a")).
Proof.
  eexists. split.
  - apply (derive_block_without_filename Examples.derived_bom
             MoreExamples.store Examples.file MoreExamples.nameless_block 3
             (lit "/a/foo.md") (VString (lit "/a/foo.md"))
             (VString (lit "a"))); reflexivity.
  - split; reflexivity.
Defined.

Lemma white_space_is_no_letter c :
  JsStr.is_white_space c = true → JsStr.eq_ci 108 c = false.
Proof.
  intros Hws. destruct (JsStr.eq_ci 108 c) eqn:E; [|done].
  unfold JsStr.eq_ci in E.
  apply orb_true_iff in E as [->%N.eqb_eq | ->%N.eqb_eq]; done.
Qed.

(** X9: the line number is taken from the message before the white
    space around it is: in a message that begins with white space the
    pattern is not at the start, so only the white space is removed and a
    line number that follows it stays in the diagnostic. *)
Theorem preprocessSync_keeps_indented_line_number
    (call : nat → Val → list Val → Store → (Val + Val) * Store)
    (derived_bom : Val → bool) (st st1 : Store)
    (file config processor ex : Val) (c : N) (m : JsString) :
  prop_of st config "processor" = Some processor →
  invoke_preprocess call file processor st = (Thrown (Raised ex), st1) →
  prop_of st1 ex "message" = Some (VString (c :: m)) →
  JsStr.is_white_space c = true →
  ∃ result st2 record,
    preprocessSync call derived_bom file config st = (Returned result, st2)
    ∧ result_errors st2 result = Some [record]
    ∧ prop_of st2 record "message"
      = Some (VString (lit "Preprocessing error: " ++ JsStr.trim m)).
Proof.
  intros Hconfig Hinvoke Hm Hws.
  destruct (preprocessSync_caught_result call derived_bom _ _ _ _ _ _ _
              Hconfig Hinvoke Hm)
    as (result & st2 & record & line & column & Hrun & _ & _ & _ & _ & _ & _
        & Herrors & Hrecord).
  exists result, st2, record. rewrite Hrecord.
  repeat split; try done. simpl. do 3 f_equal.
  unfold JsStr.replace_line_prefix, JsStr.match_line_prefix.
  destruct m as [|i [|n [|e [|sp [|d rest]]]]];
    try (unfold JsStr.trim; simpl; by rewrite Hws).
  rewrite (white_space_is_no_letter _ Hws). simpl.
  unfold JsStr.trim. simpl. by rewrite Hws.
Qed.

Lemma preprocessSync_keeps_indented_line_number_witness :
  ∃ result st2 record,
    preprocessSync MoreExamples.indented_message Examples.derived_bom
      Examples.file Examples.config Examples.store = (Returned result, st2)
    ∧ result_errors st2 result = Some [record]
    ∧ prop_of st2 record "message"
      = Some (VString (lit "Preprocessing error: line 4: bad token")).
Proof.
  apply (preprocessSync_keeps_indented_line_number
           MoreExamples.indented_message Examples.derived_bom Examples.store
           (Examples.store
              ++ [CObject [("message", VString (lit "  line 4: bad token"))]])
           Examples.file Examples.config (VRef 2) (VRef 11) 32%N
           (lit " line 4: bad token")); reflexivity.
Defined.

(** X11: [getBodyWithBOM] does not fail on a file whose body is a text
    or a typed array, whatever its [bom] flag is: it returns, and the
    store has only grown. *)
Theorem getBodyWithBOM_returns (st : Store) (file bom body : Val) :
  prop_of st file "bom" = Some bom →
  prop_of st file "body" = Some body →
  (∃ s, body = VString s) ∨ is_Some (bytes_at st body) →
  ∃ restored st',
    getBodyWithBOM file st = (Returned restored, st') ∧ st `prefix_of` st'.
Proof.
  intros Hbom Hbody Htyped.
  destruct (truthy bom) eqn:Htruthy.
  - destruct Htyped as [[s ->] | [bytes Hbytes]].
    + eexists _, _. split; [by eapply getBodyWithBOM_text|done].
    + eexists _, _. split; [by eapply getBodyWithBOM_bytes|].
      by apply prefix_app_r.
  - eexists _, _. split; [by eapply getBodyWithBOM_falsy|done].
Qed.

Lemma getBodyWithBOM_returns_witness :
  ∃ restored st',
    getBodyWithBOM Examples.binary_file Examples.store
    = (Returned restored, st')
    ∧ Examples.store `prefix_of` st'.
Proof.
  apply (getBodyWithBOM_returns Examples.store Examples.binary_file
           (VBool true) (VRef 5)); [reflexivity | reflexivity |].
  right. exists [x23; x20; x54]. reflexivity.
Defined.

(** X12: what the processor returns must be an array: for a string, a
    number, a boolean, or an object that has neither a [then] nor a [map]
    that is a function, [preprocessSync] raises a type error where it
    calls [map], and returns no result object. *)
Theorem preprocessSync_blocks_not_array
    (call : nat → Val → list Val → Store → (Val + Val) * Store)
    (derived_bom : Val → bool) (st st1 : Store)
    (file config processor blocks : Val) :
  prop_of st config "processor" = Some processor →
  invoke_preprocess call file processor st = (Returned blocks, st1) →
  (∃ s, blocks = VString s) ∨ (∃ n, blocks = VNumber n)
  ∨ (∃ b, blocks = VBool b)
  ∨ (∃ then_ map,
       prop_of st1 blocks "then" = Some then_
       ∧ typeof st1 then_ ≠ "function"
       ∧ prop_of st1 blocks "map" = Some map
       ∧ typeof st1 map ≠ "function") →
  preprocessSync call derived_bom file config st
  = (Thrown (Engine (NotCallable "map")), st1).
Proof.
  intros Hconfig Hinvoke Hblocks.
  rewrite (preprocessSync_returned _ _ _ _ _ _ _ _ Hconfig Hinvoke).
  destruct Hblocks as [[s ->] | [[n ->] | [[b ->] | Hobject]]]; try done.
  destruct Hobject as (then_ & map & Hthen & Hnothen & Hmap & Hnomap).
  unfold after_preprocess.
  rewrite (bind_returned _ _ _ _ _ (get_prop_of _ _ _ _ Hthen)).
  rewrite (bind_returned _ _ _ _ _ (eq_refl : get_store st1 = _)).
  apply String.eqb_neq in Hnothen as ->.
  destruct blocks as [| | | | |l]; try done. simpl in Hmap.
  destruct (st1 !! l) as [[props| | |]|] eqn:El; try done.
  injection Hmap as <-.
  assert (Harray : array_map (VRef l) (derive_block derived_bom file) st1
                   = (Thrown (Engine (NotCallable "map")), st1)).
  { unfold array_map.
    rewrite (bind_returned _ _ _ _ _ (eq_refl : get_store st1 = _)).
    assert (Hread : read l st1 = (Returned (CObject props), st1))
      by (unfold read; by rewrite El).
    rewrite (bind_returned _ _ _ _ _ Hread).
    by apply String.eqb_neq in Hnomap as ->. }
  by rewrite (bind_thrown _ _ _ _ _ Harray).
Qed.

Lemma preprocessSync_blocks_not_array_witness :
  preprocessSync
    (λ f this args st, (inl (VString (lit "const a = 1;")), st))
    Examples.derived_bom Examples.file Examples.config Examples.store
  = (Thrown (Engine (NotCallable "map")), Examples.store).
Proof.
  apply (preprocessSync_blocks_not_array
           (λ f this args st, (inl (VString (lit "const a = 1;")), st))
           Examples.derived_bom Examples.store Examples.store Examples.file
           Examples.config (VRef 2) (VString (lit "const a = 1;")));
    [reflexivity | reflexivity |].
  left. exists (lit "const a = 1;"). reflexivity.
Defined.

Lemma map_items_strings derived_bom file items i st :
  Forall (λ b, ∃ s, b = VString s) items →
  map_items (derive_block derived_bom file) items i st = (Returned items, st).
Proof.
  intros Hitems. revert i.
  induction Hitems as [|block items [s ->] _ IH]; intros i; [done|]. simpl.
  rewrite (bind_returned _ _ _ _ _ (derive_block_string _ _ _ _ _)).
  by rewrite (bind_returned _ _ _ _ _ (IH (S i))).
Qed.

(** X13: when every block is a string, as the processors of old return
    them, [files] holds the very blocks in their order, no file object is
    built and the file is not read at all: the store grows by the array
    of files and the result object only. *)
Theorem preprocessSync_legacy_blocks
    (call : nat → Val → list Val → Store → (Val + Val) * Store)
    (derived_bom : Val → bool) (st st1 : Store)
    (file config processor blocks : Val) (items : list Val) :
  prop_of st config "processor" = Some processor →
  invoke_preprocess call file processor st = (Returned blocks, st1) →
  items_of st1 blocks = Some items →
  Forall (λ b, ∃ s, b = VString s) items →
  preprocessSync call derived_bom file config st =
    (Returned (VRef (S (length st1))),
     st1 ++ [CArray items;
             CObject [("ok", VBool true); ("files", VRef (length st1))]]).
Proof.
  intros Hconfig Hinvoke Hitems Hstrings.
  rewrite (preprocessSync_returned _ _ _ _ _ _ _ _ Hconfig Hinvoke).
  destruct blocks as [| | | | |a]; try done. simpl in Hitems.
  destruct (st1 !! a) as [[]|] eqn:Ea; try done. injection Hitems as ->.
  unfold after_preprocess.
  assert (Hthen : get_prop (VRef a) "then" st1 = (Returned VUndefined, st1)).
  { unfold get_prop, mbind, M_bind, read. by rewrite Ea. }
  rewrite (bind_returned _ _ _ _ _ Hthen).
  rewrite (bind_returned _ _ _ _ _ (eq_refl : get_store st1 = _)).
  change (String.eqb (typeof st1 VUndefined) "function") with false.
  cbv iota.
  assert (Harray : array_map (VRef a) (derive_block derived_bom file) st1
                   = (Returned (VRef (length st1)), st1 ++ [CArray items])).
  { unfold array_map.
    rewrite (bind_returned _ _ _ _ _ (eq_refl : get_store st1 = _)).
    assert (Hread : read a st1 = (Returned (CArray items), st1))
      by (unfold read; by rewrite Ea).
    rewrite (bind_returned _ _ _ _ _ Hread).
    by rewrite (bind_returned _ _ _ _ _
                  (map_items_strings _ _ _ _ _ Hstrings)). }
  rewrite (bind_returned _ _ _ _ _ Harray).
  unfold mbind, M_bind, mret, M_ret, alloc.
  rewrite length_app, <- (assoc_L (++)). simpl.
  by rewrite Nat.add_1_r.
Qed.

Lemma preprocessSync_legacy_blocks_witness :
  preprocessSync Examples.plain_text Examples.derived_bom
    Examples.file Examples.config Examples.store
  = (Returned (VRef 13),
     (Examples.store ++ [CArray [VString (lit "plain text")]])
       ++ [CArray [VString (lit "plain text")];
           CObject [("ok", VBool true); ("files", VRef 12)]]).
Proof.
  apply (preprocessSync_legacy_blocks Examples.plain_text
           Examples.derived_bom Examples.store
           (Examples.store ++ [CArray [VString (lit "plain text")]])
           Examples.file Examples.config (VRef 2) (VRef 11)
           [VString (lit "plain text")]);
    [reflexivity | reflexivity | reflexivity |].
  repeat constructor. exists (lit "plain text"). reflexivity.
Defined.
